(** * Bank account simulation (Project 1/STAN48_Ex1.py)

    A shallow embedding of the classes [BankAccount] and [Bank] and the
    properties of their methods.

    Modelling choices.
    - Python objects are mutable and have identity: instances live in an
      object store ([objs], a finite map from locations to objects) and
      are passed around as references, so that a transfer whose target is
      the sender itself is represented as it happens in the program.
    - Numbers (amounts, balances, the interest rate) are exact rationals
      [Qc] on the object store. Python computes exactly on [int], so
      there the model and the program agree; on [float] the program
      rounds each operation to binary64 and the model does not. The
      statements on the object store therefore give a balance as the
      program's own expression ([b + a], [(b + x) - x]), and those that
      need an identity of exact arithmetic ask for integers ([is_int]).
      Module [Py] embeds [apply_interest], the one method that always
      meets a float (the rate 0.02), in Python's own numbers.
    - A method is a function in a state-and-failure monad over the
      [world]; [None] stands for an uncaught Python exception (such as
      the AttributeError of reading [balance] on a [Bank] instance).
    - [datetime.datetime.now()] is an oracle: the [n]-th reading of the
      clock yields the formatted string [strftime_now n].
    - The text Python produces for a number inside an f-string is
      [format_num], left abstract. *)

From Stdlib Require Import QArith Qcanon Ascii String.
From Stdlib Require Import PrimFloat FloatOps SpecFloat.
From stdpp Require Import base numbers strings list gmap.

Local Open Scope Qc_scope.

(** ** Data model *)

Definition loc := nat.

(** One entry of [self.transactions]: the dict built by [record]. *)
Record Transaction := mkTransaction {
  Action : string;
  Amount : Qc;
  Balance : Qc;
  Time : string
}.

(** Instance attributes set by [BankAccount.__init__]. *)
Record BankAccount := mkBankAccount {
  owner : string;
  account_type : string;
  balance : Qc;
  annual_interest_rate : Qc;
  transactions : list Transaction
}.

(** Instance attributes set by [Bank.__init__]: the list of references. *)
Record Bank := mkBank {
  accounts : list loc
}.

(** [Bank] is declared as a subclass of [BankAccount] whose constructor
    does not call the parent's: a [Bank] instance passes
    [isinstance(_, BankAccount)] but has none of the account attributes. *)
Inductive object :=
  | OBankAccount (a : BankAccount)
  | OBank (b : Bank).

(** Python values that reach the methods. *)
Inductive value :=
  | VNone
  | VStr (s : string)
  | VNum (q : Qc)
  | VRef (l : loc).

Record world := mkWorld {
  objs : gmap loc object;
  clock : nat
}.

(** ** The monad of method bodies *)

Definition M (A : Type) : Type := world → option (A * world).

Definition ret {A} (x : A) : M A := λ w, Some (x, w).

Definition bind {A B} (k : A → M B) (m : M A) : M B :=
  λ w, match m w with
       | Some (x, w') => k x w'
       | None => None
       end.

(** An uncaught exception. *)
Definition raise {A} : M A := λ _, None.

#[global] Instance M_ret : MRet M := @ret.
#[global] Instance M_bind : MBind M := @bind.

(** Attribute access on [self] when [self] is used as an account. *)
Definition load (l : loc) : M BankAccount :=
  λ w, match objs w !! l with
       | Some (OBankAccount a) => Some (a, w)
       | _ => None
       end.

Definition store (l : loc) (a : BankAccount) : M unit :=
  λ w, Some (tt, mkWorld (<[l := OBankAccount a]> (objs w)) (clock w)).

Definition load_bank (l : loc) : M Bank :=
  λ w, match objs w !! l with
       | Some (OBank b) => Some (b, w)
       | _ => None
       end.

Definition store_bank (l : loc) (b : Bank) : M unit :=
  λ w, Some (tt, mkWorld (<[l := OBank b]> (objs w)) (clock w)).

(** Allocation of a new instance. *)
Definition alloc (o : object) : M loc :=
  λ w, let l := fresh (dom (objs w)) in
       Some (l, mkWorld (<[l := o]> (objs w)) (clock w)).

(** [isinstance(v, BankAccount)]: every instance in the store is one,
    a [Bank] included. *)
Definition is_BankAccount (w : world) (v : value) : bool :=
  match v with
  | VRef l => bool_decide (is_Some (objs w !! l))
  | _ => false
  end.

Definition isinstance_BankAccount (v : value) : M bool :=
  λ w, Some (is_BankAccount w v, w).

(** The account attributes of the instance at [l], when it has them. *)
Definition account_at (w : world) (l : loc) : option BankAccount :=
  match objs w !! l with
  | Some (OBankAccount a) => Some a
  | _ => None
  end.

Definition set_balance (b : Qc) (a : BankAccount) : BankAccount :=
  mkBankAccount (owner a) (account_type a) b (annual_interest_rate a)
                (transactions a).

Definition set_transactions (ts : list Transaction) (a : BankAccount)
  : BankAccount :=
  mkBankAccount (owner a) (account_type a) (balance a)
                (annual_interest_rate a) ts.

(** [self.balance += x] *)
Definition iadd_balance (self : loc) (x : Qc) : M unit :=
  a ← load self; store self (set_balance (balance a + x) a).

(** [self.balance -= x] *)
Definition isub_balance (self : loc) (x : Qc) : M unit :=
  a ← load self; store self (set_balance (balance a - x) a).

(** [str.lower()] on ASCII text: the letters A-Z are lowered, every
    other byte is kept. Python also lowers cased characters outside
    ASCII, which this model does not represent ([is_ascii] below marks
    the strings on which the two agree). *)
Definition lower_ascii (c : ascii) : ascii :=
  let n := nat_of_ascii c in
  if (65 <=? n)%nat && (n <=? 90)%nat then ascii_of_nat (n + 32) else c.

Fixpoint lower (s : string) : string :=
  match s with
  | EmptyString => EmptyString
  | String c s' => String (lower_ascii c) (lower s')
  end.

(** [s] is ASCII text: [lower] is Python's [str.lower()] on such strings. *)
Definition is_ascii (s : string) : bool :=
  forallb (λ c, (nat_of_ascii c <? 128)%nat) (list_ascii_of_string s).


(** ** The interest arithmetic in Python's own numbers

    The rate set by the constructor is the float [0.02], so
    [apply_interest] computes in binary64 whenever it changes a balance.
    This module embeds the method on one account with Python's numbers:
    [int] is exact, [float] is IEEE 754 binary64, and an [int] operand
    meeting a [float] is converted first (OverflowError, here [None],
    when it is too large). *)
Module Py.

Inductive num :=
  | PInt (z : Z)
  | PFloat (f : float).

(** [float(z)]: round to nearest, ties to even; raises when the result
    would not be finite. *)
Definition float_of_Z (z : Z) : option float :=
  let f := SF2Prim (binary_normalize prec emax z 0 false) in
  if PrimFloat.is_infinity f then None else Some f.

Definition to_float (x : num) : option float :=
  match x with
  | PInt z => float_of_Z z
  | PFloat f => Some f
  end.

(** [x + y] *)
Definition add (x y : num) : option num :=
  match x, y with
  | PInt a, PInt b => Some (PInt (a + b))
  | _, _ =>
    a ← to_float x; b ← to_float y; Some (PFloat (PrimFloat.add a b))
  end.

(** [x * y] *)
Definition mul (x y : num) : option num :=
  match x, y with
  | PInt a, PInt b => Some (PInt (a * b))
  | _, _ =>
    a ← to_float x; b ← to_float y; Some (PFloat (PrimFloat.mul a b))
  end.

Record BankAccount := mkBankAccount {
  owner : string;
  account_type : string;
  balance : num;
  annual_interest_rate : num;
  transactions : list (string * num * num * string)
}.

(** [__init__]: the rate is the float literal [0.02]. *)
Definition BankAccount_init (owner account_type : string) (balance : num)
  : BankAccount :=
  mkBankAccount owner (lower account_type) balance
                (PFloat 0x1.47ae147ae147bp-6) [].

(** [self.balance += x] *)
Definition iadd_balance (self : BankAccount) (x : num) : option BankAccount :=
  b ← add (balance self) x;
  Some (mkBankAccount (owner self) (account_type self) b
          (annual_interest_rate self) (transactions self)).

(** [apply_interest(self)], as a function of the instance: the instance
    after the call, or [None] when the call raises. *)
Definition apply_interest (self : BankAccount) : option BankAccount :=
  if decide (account_type self = "savings") then
    interest ← mul (balance self) (annual_interest_rate self);
    iadd_balance self interest
  else if decide (account_type self = "morgage_loan") then
    rate ← mul (annual_interest_rate self) (PInt 2);
    interest ← mul (balance self) rate;
    iadd_balance self interest
  else if decide (account_type self = "private_loan") then
    rate ← mul (annual_interest_rate self) (PInt 5);
    interest ← mul (balance self) rate;
    iadd_balance self interest
  else Some self.

(** The claim that a savings balance [b] becomes [b * (1 + r)], read in
    Python's arithmetic: the new balance is the number Python computes
    for [b * (1 + r)]. *)
Definition savings_as_product (self : BankAccount) : Prop :=
  ∀ self' one_plus_r v,
    apply_interest self = Some self' →
    add (PInt 1) (annual_interest_rate self) = Some one_plus_r →
    mul (balance self) one_plus_r = Some v →
    balance self' = v.

End Py.

Section Program.

(** The formatted time at the [n]-th reading of the clock. *)
Variable strftime_now : nat → string.
(** The text of a number inside an f-string. *)
Variable format_num : Qc → string.

Definition now : M string :=
  λ w, Some (strftime_now (clock w), mkWorld (objs w) (S (clock w))).

(** ** class BankAccount *)

(** [__init__(self, owner, account_type, balance=0)] *)
Definition BankAccount_init (owner account_type : string) (balance : Qc)
  : BankAccount :=
  mkBankAccount owner (lower account_type) balance (Q2Qc (2 # 100)) [].

(** The call [BankAccount(owner, account_type, balance)]. *)
Definition BankAccount_new (owner account_type : string) (balance : Qc)
  : M loc :=
  alloc (OBankAccount (BankAccount_init owner account_type balance)).

(** [record(self, action_type, amount)] *)
Definition record (self : loc) (action_type : string) (amount : Qc)
  : M value :=
  a ← load self;
  t ← now;
  store self (set_transactions
                (transactions a ++
                   [mkTransaction action_type amount (balance a) t]) a);;
  mret VNone.

(** [deposit(self, amount)] *)
Definition deposit (self : loc) (amount : Qc) : M value :=
  if decide (amount <= 0) then
    mret (VStr "Deposit amount has to be positve number!")
  else
    iadd_balance self amount;;
    record self "deposit" amount;;
    mret VNone.

(** [withdraw(self, amount)] *)
Definition withdraw (self : loc) (amount : Qc) : M value :=
  if decide (amount <= 0) then
    mret (VStr "Withdraw amount has to be positve number!")
  else
    a ← load self;
    if decide (balance a < amount) then
      mret (VStr ("Not enough money remaining! Current balance: "
                   +:+ format_num (balance a) +:+ "."))
    else
      isub_balance self amount;;
      record self "withdraw" amount;;
      mret VNone.

(** [__str__(self)]: the f-string over the attributes read from [self]. *)
Definition account_str (a : BankAccount) : string :=
  "Bank account of " +:+ owner a +:+ " | Account type: "
    +:+ account_type a +:+ " | Balance: "
    +:+ format_num (balance a) +:+ ".".

Definition BankAccount_str (self : loc) : M string :=
  a ← load self; mret (account_str a).

(** [transfer(self, target_account, amount)] *)
Definition transfer (self : loc) (target_account : value) (amount : Qc)
  : M value :=
  is_account ← isinstance_BankAccount target_account;
  if negb is_account then
    mret (VStr "Target account must be a bank account")
  else if decide (amount <= 0) then
    mret (VStr "Transfer amount has to be positve number!")
  else
    a ← load self;
    if decide (balance a < amount) then
      mret (VStr ("Not enough money remaining! Current balance: "
                    +:+ format_num (balance a) +:+ "."))
    else
      match target_account with
      | VRef target =>
        deposit target amount;;
        s ← load self;
        record target ("transfer from " +:+ owner s) amount;;
        isub_balance self amount;;
        t ← BankAccount_str target;
        record self ("transfer to " +:+ t) amount;;
        mret VNone
      | _ => raise (* not reached: only references are instances *)
      end.

(** [apply_interest(self)] *)
Definition apply_interest (self : loc) : M value :=
  a ← load self;
  if decide (account_type a = "savings") then
    (let interest := balance a * annual_interest_rate a in
     iadd_balance self interest);; mret VNone
  else if decide (account_type a = "morgage_loan") then
    (let interest := balance a * (annual_interest_rate a * Q2Qc 2) in
     iadd_balance self interest);; mret VNone
  else if decide (account_type a = "private_loan") then
    (let interest := balance a * (annual_interest_rate a * Q2Qc 5) in
     iadd_balance self interest);; mret VNone
  else mret VNone.

(** ** class Bank *)

(** [Bank.__init__]: only [self.accounts = []]. *)
Definition Bank_new : M loc := alloc (OBank (mkBank [])).

(** [create_account(self, owner, account_type, balance=0)] *)
Definition create_account (self : loc) (owner account_type : string)
    (balance : Qc) : M value :=
  new_acc ← BankAccount_new owner account_type balance;
  b ← load_bank self;
  store_bank self (mkBank (accounts b ++ [new_acc]));;
  mret (VRef new_acc).

(** The [for acc in self.accounts: ... else: ...] loop of [get_account]. *)
Fixpoint get_account_loop (accs : list loc) (owner_name : string)
  : M value :=
  match accs with
  | [] => mret (VStr "Account not found")
  | acc :: rest =>
    a ← load acc;
    if decide (owner a = owner_name) then mret (VRef acc)
    else get_account_loop rest owner_name
  end.

(** [get_account(self, owner_name)] *)
Definition get_account (self : loc) (owner_name : string) : M value :=
  b ← load_bank self;
  get_account_loop (accounts b) owner_name.



(** ** Specification vocabulary *)

(** The world after a successful [deposit] on the account [a] at [self]. *)
Definition after_deposit (w : world) (self : loc) (a : BankAccount)
    (amount : Qc) : world :=
  mkWorld (<[self := OBankAccount
               (mkBankAccount (owner a) (account_type a) (balance a + amount)
                  (annual_interest_rate a)
                  (transactions a ++
                     [mkTransaction "deposit" amount (balance a + amount)
                                    (strftime_now (clock w))]))]>
             (objs w))
          (S (clock w)).

(** The world after a successful [withdraw]. *)
Definition after_withdraw (w : world) (self : loc) (a : BankAccount)
    (amount : Qc) : world :=
  mkWorld (<[self := OBankAccount
               (mkBankAccount (owner a) (account_type a) (balance a - amount)
                  (annual_interest_rate a)
                  (transactions a ++
                     [mkTransaction "withdraw" amount (balance a - amount)
                                    (strftime_now (clock w))]))]>
             (objs w))
          (S (clock w)).

(** The target and the sender after a successful [transfer] between two
    different instances. *)
Definition credited (w : world) (sender target : BankAccount) (amount : Qc)
  : BankAccount :=
  mkBankAccount (owner target) (account_type target)
    (balance target + amount) (annual_interest_rate target)
    (transactions target ++
       [mkTransaction "deposit" amount (balance target + amount)
                      (strftime_now (clock w));
        mkTransaction ("transfer from " +:+ owner sender) amount
                      (balance target + amount)
                      (strftime_now (S (clock w)))]).

Definition debited (w : world) (sender target : BankAccount) (amount : Qc)
  : BankAccount :=
  mkBankAccount (owner sender) (account_type sender)
    (balance sender - amount) (annual_interest_rate sender)
    (transactions sender ++
       [mkTransaction
          ("transfer to " +:+ account_str (credited w sender target amount))
          amount (balance sender - amount)
          (strftime_now (S (S (clock w))))]).

Definition after_transfer (w : world) (self target : loc)
    (a b : BankAccount) (amount : Qc) : world :=
  mkWorld (<[self := OBankAccount (debited w a b amount)]>
             (<[target := OBankAccount (credited w a b amount)]> (objs w)))
          (S (S (S (clock w)))).

(** The labels [record] is given by [transfer]. *)
Definition is_transfer_out (t : Transaction) : bool :=
  String.prefix "transfer to " (Action t).

Definition is_transfer_in (t : Transaction) : bool :=
  String.prefix "transfer from " (Action t).

(** An operation records its balance changes: whenever it changes the
    balance of an account, it appends exactly one transaction to that
    account, holding the new balance. *)
Definition records_balance_change (op : M value) : Prop :=
  ∀ w r w' l acc acc',
    op w = Some (r, w') →
    account_at w l = Some acc →
    account_at w' l = Some acc' →
    balance acc' ≠ balance acc →
    ∃ t, transactions acc' = transactions acc ++ [t] ∧
         Balance t = balance acc'.

(** A transfer of [amount] from the account at [A] to the account at [B]
    moves the balances: [A] ends at [b - amount] and [B] at [c + amount]. *)
Definition transfer_moves_balance (w : world) (A B : loc) (amount : Qc)
  : Prop :=
  ∀ accA accB,
    account_at w A = Some accA →
    account_at w B = Some accB →
    0 < amount → amount <= balance accA →
    ∃ r w' accA' accB',
      transfer A (VRef B) amount w = Some (r, w') ∧
      account_at w' A = Some accA' ∧
      account_at w' B = Some accB' ∧
      balance accA' = balance accA - amount ∧
      balance accB' = balance accB + amount.

(** ** Sequences of calls, the bank's books, and what operations keep *)

(** A call of one of the balance-changing methods of [BankAccount]. *)
Inductive account_op :=
  | OpDeposit (self : loc) (amount : Qc)
  | OpWithdraw (self : loc) (amount : Qc)
  | OpTransfer (self : loc) (target_account : value) (amount : Qc)
  | OpInterest (self : loc).

Definition run_op (op : account_op) : M value :=
  match op with
  | OpDeposit self amount => deposit self amount
  | OpWithdraw self amount => withdraw self amount
  | OpTransfer self target_account amount =>
    transfer self target_account amount
  | OpInterest self => apply_interest self
  end.

(** The calls made one after the other, return values dropped. *)
Fixpoint run_ops (ops : list account_op) : M unit :=
  match ops with
  | [] => mret tt
  | op :: rest => run_op op;; run_ops rest
  end.



(** Every entry of [self.accounts] is an account. *)
Definition stores_accounts (w : world) (bk : Bank) : Prop :=
  Forall (λ l, is_Some (account_at w l)) (accounts bk).

(** What an account keeps from [a] to [a']: its owner, type and rate,
    and its transaction list up to new entries at the end. *)
Definition account_kept (a a' : BankAccount) : Prop :=
  owner a' = owner a ∧
  account_type a' = account_type a ∧
  annual_interest_rate a' = annual_interest_rate a ∧
  transactions a `prefix_of` transactions a'.

(** From [w] to [w']: no instance appears or disappears, banks are
    untouched, accounts stay accounts and keep the above, and the clock
    does not go back. *)
Definition evolves (w w' : world) : Prop :=
  (clock w ≤ clock w')%nat ∧
  ∀ l, match objs w !! l with
       | Some (OBankAccount a) =>
         ∃ a', objs w' !! l = Some (OBankAccount a') ∧ account_kept a a'
       | o => objs w' !! l = o
       end.

(** No balance is negative, and no interest rate either. *)
Definition solvent (w : world) : Prop :=
  ∀ l a, account_at w l = Some a →
         0 <= balance a ∧ 0 <= annual_interest_rate a.

(** The account after a successful [transfer] to itself: credited, then
    debited, with the three records written on the way. *)
Definition self_transferred (w : world) (a : BankAccount) (amount : Qc)
  : BankAccount :=
  mkBankAccount (owner a) (account_type a)
    (balance a + amount - amount) (annual_interest_rate a)
    (transactions a ++
       [mkTransaction "deposit" amount (balance a + amount)
                      (strftime_now (clock w));
        mkTransaction ("transfer from " +:+ owner a) amount
                      (balance a + amount) (strftime_now (S (clock w)));
        mkTransaction
          ("transfer to " +:+
             account_str (set_balance (balance a + amount - amount) a))
          amount (balance a + amount - amount)
          (strftime_now (S (S (clock w))))]).

Definition after_self_transfer (w : world) (self : loc) (a : BankAccount)
    (amount : Qc) : world :=
  mkWorld (<[self := OBankAccount (self_transferred w a amount)]> (objs w))
          (S (S (S (clock w)))).

(** A bank in good order: its entries are accounts, each stored once. *)
Definition bank_ok (w : world) (self : loc) : Prop :=
  ∃ bk, objs w !! self = Some (OBank bk) ∧
        stores_accounts w bk ∧ NoDup (accounts bk).

(** The instances a call may write to. *)
Definition op_accounts (op : account_op) : list loc :=
  match op with
  | OpDeposit self _ => [self]
  | OpWithdraw self _ => [self]
  | OpTransfer self (VRef target) _ => [self; target]
  | OpTransfer self _ _ => [self]
  | OpInterest self => [self]
  end.

(** ** Console output

    [print] writes a line to standard output. The two methods that only
    print are modelled by the lines they write, in order. *)

(** The text of [repr] of a string, as it appears inside a printed dict. *)
Variable repr_str : string → string.

Definition separator : string :=
  "-----------------------------------------------------------------------------------------".

(** [print(action)] for an entry of [self.transactions]: the dict with
    its four keys in insertion order. *)
Definition dict_str (t : Transaction) : string :=
  "{'Action': " +:+ repr_str (Action t) +:+
  ", 'Amount': " +:+ format_num (Amount t) +:+
  ", 'Balance': " +:+ format_num (Balance t) +:+
  ", 'Time': " +:+ repr_str (Time t) +:+ "}".

(** [history(self)] *)
Fixpoint history_loop (ts : list Transaction) : list string :=
  match ts with
  | [] => []
  | action :: rest => separator :: dict_str action :: history_loop rest
  end.

Definition history (self : loc) : M (list string) :=
  a ← load self; mret (history_loop (transactions a)).

(** [list_accounts(self)]: [print(acc)] writes [str(acc)]. *)
Fixpoint list_accounts_loop (accs : list loc) : M (list string) :=
  match accs with
  | [] => mret []
  | acc :: rest =>
    s ← BankAccount_str acc;
    lines ← list_accounts_loop rest;
    mret (s :: lines)
  end.

Definition list_accounts (self : loc) : M (list string) :=
  b ← load_bank self; list_accounts_loop (accounts b).

(** ** Sample data, used to exercise the statements below *)

Definition sample_time : nat → string := λ _, "2024/01/01, 00:00:00".
Definition sample_format : Qc → string := λ _, "#".

Definition alice : BankAccount :=
  mkBankAccount "Alice" "savings" (Q2Qc 100) (Q2Qc (2 # 100)) [].
Definition bob : BankAccount :=
  mkBankAccount "Bob" "checking" (Q2Qc 5) (Q2Qc (2 # 100)) [].
Definition carol : BankAccount :=
  mkBankAccount "Carol" "mortgage_loan" (Q2Qc 100) (Q2Qc (2 # 100)) [].

Definition alice_ref : loc := 0%nat.
Definition bob_ref : loc := 1%nat.
Definition carol_ref : loc := 2%nat.
Definition bank_ref : loc := 3%nat.

(** Three accounts and a bank holding them, in this order. *)
Definition sample_world : world :=
  mkWorld (<[alice_ref := OBankAccount alice]>
             (<[bob_ref := OBankAccount bob]>
                (<[carol_ref := OBankAccount carol]>
                   (<[bank_ref := OBank (mkBank [alice_ref; bob_ref;
                                                 carol_ref])]> ∅)))) 0.

(** More sample data: a sequence of calls, one of them rejected, a
    [repr] for strings without quotes inside, and an account in debt. *)
Definition sample_ops : list account_op :=
  [OpDeposit alice_ref (Q2Qc 50);
   OpTransfer alice_ref (VRef bob_ref) (Q2Qc 30);
   OpWithdraw bob_ref (Q2Qc 500);
   OpInterest alice_ref].

Definition sample_repr : string → string := λ s, "'" +:+ s +:+ "'".



(** * Properties *)

(** ** Running the monad *)

Lemma bind_Some {A B} (m : M A) (k : A → M B) w x w' :
  m w = Some (x, w') → (m ≫= k) w = k x w'.
Proof. intros H. unfold mbind, M_bind, bind. by rewrite H. Qed.

Lemma bind_None {A B} (m : M A) (k : A → M B) w :
  m w = None → (m ≫= k) w = None.
Proof. intros H. unfold mbind, M_bind, bind. by rewrite H. Qed.

Lemma mret_run {A} (x : A) w : (mret x : M A) w = Some (x, w).
Proof. reflexivity. Qed.

Lemma load_Some w l a : account_at w l = Some a → load l w = Some (a, w).
Proof.
  unfold account_at, load. intros H.
  destruct (objs w !! l) as [[a'|b]|]; congruence.
Qed.

Lemma load_None w l : account_at w l = None → load l w = None.
Proof.
  unfold account_at, load. intros H.
  destruct (objs w !! l) as [[a'|b]|]; congruence.
Qed.

Lemma account_at_store m c l a :
  account_at (mkWorld (<[l := OBankAccount a]> m) c) l = Some a.
Proof. unfold account_at; simpl. by rewrite lookup_insert_eq. Qed.

Lemma account_at_store_ne m c l l' o :
  l ≠ l' →
  account_at (mkWorld (<[l := o]> m) c) l' = account_at (mkWorld m c) l'.
Proof. intros Hne. unfold account_at; simpl. by rewrite lookup_insert_ne. Qed.

Lemma iadd_balance_run w self a x :
  account_at w self = Some a →
  iadd_balance self x w =
    Some (tt, mkWorld (<[self := OBankAccount (set_balance (balance a + x) a)]>
                         (objs w)) (clock w)).
Proof.
  intros H. unfold iadd_balance.
  by rewrite (bind_Some _ _ _ _ _ (load_Some _ _ _ H)).
Qed.

Lemma isub_balance_run w self a x :
  account_at w self = Some a →
  isub_balance self x w =
    Some (tt, mkWorld (<[self := OBankAccount (set_balance (balance a - x) a)]>
                         (objs w)) (clock w)).
Proof.
  intros H. unfold isub_balance.
  by rewrite (bind_Some _ _ _ _ _ (load_Some _ _ _ H)).
Qed.

Lemma iadd_balance_None w self x :
  account_at w self = None → iadd_balance self x w = None.
Proof. intros H. unfold iadd_balance. by rewrite bind_None; [|apply load_None]. Qed.

Lemma record_run w self a action_type amount :
  account_at w self = Some a →
  record self action_type amount w =
    Some (VNone,
          mkWorld (<[self := OBankAccount
                       (set_transactions
                          (transactions a ++
                             [mkTransaction action_type amount (balance a)
                                            (strftime_now (clock w))]) a)]>
                     (objs w))
                  (S (clock w))).
Proof.
  intros H. unfold record.
  rewrite (bind_Some _ _ _ _ _ (load_Some _ _ _ H)).
  reflexivity.
Qed.

(** ** deposit *)

Lemma deposit_rejected w self amount :
  amount <= 0 →
  deposit self amount w =
    Some (VStr "Deposit amount has to be positve number!", w).
Proof. intros H. unfold deposit. by rewrite decide_True. Qed.

Lemma deposit_run w self a amount :
  account_at w self = Some a → 0 < amount →
  deposit self amount w = Some (VNone, after_deposit w self a amount).
Proof.
  intros H Hpos. unfold deposit.
  rewrite decide_False; [|by apply Qclt_not_le].
  rewrite (bind_Some _ _ _ _ _ (iadd_balance_run _ _ _ amount H)).
  erewrite bind_Some; [|apply record_run, account_at_store].
  rewrite mret_run. unfold after_deposit; simpl.
  by rewrite insert_insert_eq.
Qed.

Lemma deposit_None w self amount :
  account_at w self = None → 0 < amount → deposit self amount w = None.
Proof.
  intros H Hpos. unfold deposit.
  rewrite decide_False; [|by apply Qclt_not_le].
  by rewrite bind_None; [|apply iadd_balance_None].
Qed.

(** C4. [deposit(a)] with [a <= 0] returns a message string, raises
    nothing and leaves the whole world (so the balance and the
    transaction list) as it was; with [a > 0] it returns normally, the
    balance becomes [b + a] and exactly one record is appended, with
    action "deposit", amount [a] and recorded balance [b + a]. *)
Theorem deposit_spec w self acc (a : Qc) :
  account_at w self = Some acc →
  (a <= 0 → ∃ msg, deposit self a w = Some (VStr msg, w)) ∧
  (0 < a →
   ∃ w', deposit self a w = Some (VNone, w') ∧
         account_at w' self =
           Some (mkBankAccount (owner acc) (account_type acc)
                   (balance acc + a) (annual_interest_rate acc)
                   (transactions acc ++
                      [mkTransaction "deposit" a (balance acc + a)
                                     (strftime_now (clock w))]))).
Proof.
  intros Hacc. split.
  - intros Hle. eexists. by apply deposit_rejected.
  - intros Hpos. exists (after_deposit w self acc a). split.
    + by apply deposit_run.
    + apply account_at_store.
Qed.

(** ** withdraw *)

Lemma withdraw_run w self a amount :
  account_at w self = Some a → 0 < amount → amount <= balance a →
  withdraw self amount w = Some (VNone, after_withdraw w self a amount).
Proof.
  intros H Hpos Hle. unfold withdraw.
  rewrite decide_False; [|by apply Qclt_not_le].
  rewrite (bind_Some _ _ _ _ _ (load_Some _ _ _ H)).
  rewrite decide_False; [|by apply Qcle_not_lt].
  rewrite (bind_Some _ _ _ _ _ (isub_balance_run _ _ _ amount H)).
  erewrite bind_Some; [|apply record_run, account_at_store].
  rewrite mret_run. unfold after_withdraw; simpl.
  by rewrite insert_insert_eq.
Qed.

Lemma withdraw_rejected w self a amount :
  account_at w self = Some a → amount <= 0 ∨ balance a < amount →
  ∃ msg, withdraw self amount w = Some (VStr msg, w).
Proof.
  intros H Hbad. unfold withdraw.
  destruct (decide (amount <= 0)) as [Hle|Hnle]; [by eexists|].
  rewrite (bind_Some _ _ _ _ _ (load_Some _ _ _ H)).
  destruct Hbad as [Hle|Hlt]; [done|].
  rewrite decide_True by done. by eexists.
Qed.

(** C5. [withdraw(a)] fails, returning a message string and leaving the
    world unchanged, exactly when [a <= 0] or [a > b]; otherwise it
    returns normally, the balance becomes [b - a] and exactly one
    "withdraw" record is appended. *)
Theorem withdraw_spec w self acc (a : Qc) :
  account_at w self = Some acc →
  (a <= 0 ∨ balance acc < a →
   ∃ msg, withdraw self a w = Some (VStr msg, w)) ∧
  ((∃ msg w', withdraw self a w = Some (VStr msg, w')) →
   a <= 0 ∨ balance acc < a) ∧
  (0 < a ∧ a <= balance acc →
   ∃ w', withdraw self a w = Some (VNone, w') ∧
         account_at w' self =
           Some (mkBankAccount (owner acc) (account_type acc)
                   (balance acc - a) (annual_interest_rate acc)
                   (transactions acc ++
                      [mkTransaction "withdraw" a (balance acc - a)
                                     (strftime_now (clock w))]))).
Proof.
  intros Hacc. split; [|split].
  - by apply withdraw_rejected.
  - intros (msg & w' & Hrun).
    destruct (decide (a <= 0)) as [|Hpos]; [by left|].
    destruct (decide (balance acc < a)) as [|Hle]; [by right|].
    apply Qcnot_le_lt in Hpos. apply Qcnot_lt_le in Hle.
    rewrite (withdraw_run _ _ _ _ Hacc Hpos Hle) in Hrun. discriminate.
  - intros [Hpos Hle]. exists (after_withdraw w self acc a). split.
    + by apply withdraw_run.
    + apply account_at_store.
Qed.

(** ** transfer *)

Lemma is_BankAccount_account w l a :
  account_at w l = Some a → is_BankAccount w (VRef l) = true.
Proof.
  unfold account_at, is_BankAccount. intros H.
  apply bool_decide_eq_true. destruct (objs w !! l); [eauto|done].
Qed.

Ltac account_lookup H :=
  simpl;
  repeat (rewrite account_at_store_ne by done);
  first [ apply account_at_store | exact H ].

Lemma transfer_run w A B accA accB amount :
  A ≠ B →
  account_at w A = Some accA →
  account_at w B = Some accB →
  0 < amount → amount <= balance accA →
  transfer A (VRef B) amount w =
    Some (VNone, after_transfer w A B accA accB amount).
Proof.
  intros Hne HA HB Hpos Hle. unfold transfer.
  erewrite bind_Some; [|reflexivity].
  rewrite (is_BankAccount_account _ _ _ HB); simpl.
  rewrite decide_False; [|by apply Qclt_not_le].
  rewrite (bind_Some _ _ _ _ _ (load_Some _ _ _ HA)).
  rewrite decide_False; [|by apply Qcle_not_lt].
  rewrite (bind_Some _ _ _ _ _ (deposit_run _ _ _ _ HB Hpos)).
  unfold after_deposit.
  erewrite bind_Some; [|apply load_Some; account_lookup HA].
  erewrite bind_Some; [|apply record_run; account_lookup HA].
  erewrite bind_Some; [|apply isub_balance_run; account_lookup HA].
  unfold BankAccount_str.
  erewrite bind_Some;
    [|erewrite bind_Some; [|apply load_Some; account_lookup HA];
      apply mret_run].
  erewrite bind_Some; [|apply record_run; account_lookup HA].
  rewrite mret_run. unfold after_transfer, debited, credited; simpl.
  rewrite !insert_insert_eq, <- !app_assoc. simpl. reflexivity.
Qed.

(** A transfer whose target is the sender: the credit leg and the debit
    leg act on the same instance, and the balance ends where it began. *)
Lemma transfer_self_run w A accA amount :
  account_at w A = Some accA →
  0 < amount → amount <= balance accA →
  ∃ w' acc',
    transfer A (VRef A) amount w = Some (VNone, w') ∧
    account_at w' A = Some acc' ∧
    balance acc' = balance accA ∧
    length (transactions acc') = (length (transactions accA) + 3)%nat.
Proof.
  intros HA Hpos Hle. unfold transfer.
  erewrite bind_Some; [|reflexivity].
  rewrite (is_BankAccount_account _ _ _ HA); simpl.
  rewrite decide_False; [|by apply Qclt_not_le].
  rewrite (bind_Some _ _ _ _ _ (load_Some _ _ _ HA)).
  rewrite decide_False; [|by apply Qcle_not_lt].
  rewrite (bind_Some _ _ _ _ _ (deposit_run _ _ _ _ HA Hpos)).
  unfold after_deposit.
  erewrite bind_Some; [|apply load_Some; account_lookup HA].
  erewrite bind_Some; [|apply record_run; account_lookup HA].
  erewrite bind_Some; [|apply isub_balance_run; account_lookup HA].
  unfold BankAccount_str.
  erewrite bind_Some;
    [|erewrite bind_Some; [|apply load_Some; account_lookup HA];
      apply mret_run].
  erewrite bind_Some; [|apply record_run; account_lookup HA].
  rewrite mret_run. do 2 eexists. split; [reflexivity|].
  split; [apply account_at_store|]. simpl. split.
  - ring.
  - rewrite !length_app. simpl. lia.
Qed.

(** C3, amended. For two different accounts A (balance [b]) and B
    (balance [c]) and an amount [a] with [0 < a <= b], the transfer of
    [a] from A to B returns normally and leaves A with balance [b - a]
    and B with balance [c + a]. *)
Theorem transfer_balances_distinct w A B (a : Qc) :
  A ≠ B → transfer_moves_balance w A B a.
Proof.
  intros Hne accA accB HA HB Hpos Hle.
  exists VNone, (after_transfer w A B accA accB a),
         (debited w accA accB a), (credited w accA accB a).
  split; [by apply transfer_run|]. unfold after_transfer.
  split; [apply account_at_store|].
  split; [|done].
  rewrite account_at_store_ne by done. apply account_at_store.
Qed.

(** C9. A transfer rejected because the target is not a BankAccount
    instance, because the amount is not positive, or because the amount
    exceeds the sender's balance returns a message string and leaves the
    world as it was: no balance and no transaction list changes, on the
    sender, on the target or anywhere else. *)
Theorem transfer_failure_frame w self target acc (a : Qc) :
  account_at w self = Some acc →
  is_BankAccount w target = false ∨ a <= 0 ∨ balance acc < a →
  ∃ msg, transfer self target a w = Some (VStr msg, w).
Proof.
  intros Hacc Hbad. unfold transfer.
  erewrite bind_Some; [|reflexivity].
  destruct (is_BankAccount w target); simpl; [|by eexists].
  destruct Hbad as [?|Hbad]; [done|].
  destruct (decide (a <= 0)) as [|Hpos]; [by eexists|].
  destruct Hbad as [?|Hlt]; [done|].
  rewrite (bind_Some _ _ _ _ _ (load_Some _ _ _ Hacc)).
  rewrite decide_True by done. by eexists.
Qed.

(** ** apply_interest *)

Lemma apply_interest_savings w self acc :
  account_at w self = Some acc → account_type acc = "savings" →
  apply_interest self w =
    Some (VNone,
          mkWorld (<[self := OBankAccount
                       (set_balance
                          (balance acc +
                             balance acc * annual_interest_rate acc) acc)]>
                     (objs w)) (clock w)).
Proof.
  intros Hacc Hty. unfold apply_interest.
  rewrite (bind_Some _ _ _ _ _ (load_Some _ _ _ Hacc)).
  rewrite decide_True by done.
  by rewrite (bind_Some _ _ _ _ _ (iadd_balance_run _ _ _ _ Hacc)).
Qed.

(** The label the second branch compares with is spelled "morgage_loan". *)
Lemma apply_interest_morgage_loan w self acc :
  account_at w self = Some acc → account_type acc = "morgage_loan" →
  apply_interest self w =
    Some (VNone,
          mkWorld (<[self := OBankAccount
                       (set_balance
                          (balance acc * (1 + Q2Qc 2 * annual_interest_rate acc))
                          acc)]>
                     (objs w)) (clock w)).
Proof.
  intros Hacc Hty. unfold apply_interest.
  rewrite (bind_Some _ _ _ _ _ (load_Some _ _ _ Hacc)).
  rewrite decide_False by (rewrite Hty; discriminate).
  rewrite decide_True by done.
  rewrite (bind_Some _ _ _ _ _ (iadd_balance_run _ _ _ _ Hacc)).
  rewrite mret_run. unfold set_balance. do 6 f_equal. ring.
Qed.

Lemma apply_interest_private_loan w self acc :
  account_at w self = Some acc → account_type acc = "private_loan" →
  apply_interest self w =
    Some (VNone,
          mkWorld (<[self := OBankAccount
                       (set_balance
                          (balance acc * (1 + Q2Qc 5 * annual_interest_rate acc))
                          acc)]>
                     (objs w)) (clock w)).
Proof.
  intros Hacc Hty. unfold apply_interest.
  rewrite (bind_Some _ _ _ _ _ (load_Some _ _ _ Hacc)).
  do 2 rewrite decide_False by (rewrite Hty; discriminate).
  rewrite decide_True by done.
  rewrite (bind_Some _ _ _ _ _ (iadd_balance_run _ _ _ _ Hacc)).
  rewrite mret_run. unfold set_balance. do 6 f_equal. ring.
Qed.

Lemma apply_interest_other w self acc :
  account_at w self = Some acc →
  account_type acc ≠ "savings" →
  account_type acc ≠ "morgage_loan" →
  account_type acc ≠ "private_loan" →
  apply_interest self w = Some (VNone, w).
Proof.
  intros Hacc H1 H2 H3. unfold apply_interest.
  rewrite (bind_Some _ _ _ _ _ (load_Some _ _ _ Hacc)).
  by rewrite !decide_False.
Qed.

(** In exact arithmetic the balance the savings branch computes,
    [b + b * r], is [b * (1 + r)]. *)
Lemma apply_interest_savings_exact w self acc :
  account_at w self = Some acc → account_type acc = "savings" →
  ∃ w', apply_interest self w = Some (VNone, w') ∧
        account_at w' self =
          Some (mkBankAccount (owner acc) (account_type acc)
                  (balance acc * (1 + annual_interest_rate acc))
                  (annual_interest_rate acc) (transactions acc)).
Proof.
  intros Hacc Hty. eexists.
  split; [exact (apply_interest_savings _ _ _ Hacc Hty)|].
  rewrite account_at_store. unfold set_balance. do 2 f_equal. ring.
Qed.

(** C6, amended. On a "savings" account with balance [b] and rate [r],
    [apply_interest()] sets the balance to [b + b * r], computed in the
    program's arithmetic, and changes nothing else; on a "checking"
    account it changes nothing. The first five parts are in Python's
    numbers: whatever the operands when no conversion overflows; with a
    float rate, the binary64 sum of [b] and the binary64 product, for a
    float balance and for an int balance converted first; with int rate
    and balance, the exact integer; and checking. The last two are the
    same on the object store. *)
Theorem apply_interest_savings_checking :
  (∀ (self : Py.BankAccount) interest b',
     Py.account_type self = "savings" →
     Py.mul (Py.balance self) (Py.annual_interest_rate self)
     = Some interest →
     Py.add (Py.balance self) interest = Some b' →
     Py.apply_interest self
     = Some (Py.mkBankAccount (Py.owner self) (Py.account_type self) b'
               (Py.annual_interest_rate self) (Py.transactions self))) ∧
  (∀ (self : Py.BankAccount) r f,
     Py.account_type self = "savings" →
     Py.annual_interest_rate self = Py.PFloat r →
     Py.balance self = Py.PFloat f →
     Py.apply_interest self
     = Some (Py.mkBankAccount (Py.owner self) (Py.account_type self)
               (Py.PFloat (PrimFloat.add f (PrimFloat.mul f r)))
               (Py.annual_interest_rate self) (Py.transactions self))) ∧
  (∀ (self : Py.BankAccount) r z f,
     Py.account_type self = "savings" →
     Py.annual_interest_rate self = Py.PFloat r →
     Py.balance self = Py.PInt z →
     Py.float_of_Z z = Some f →
     Py.apply_interest self
     = Some (Py.mkBankAccount (Py.owner self) (Py.account_type self)
               (Py.PFloat (PrimFloat.add f (PrimFloat.mul f r)))
               (Py.annual_interest_rate self) (Py.transactions self))) ∧
  (∀ (self : Py.BankAccount) k z,
     Py.account_type self = "savings" →
     Py.annual_interest_rate self = Py.PInt k →
     Py.balance self = Py.PInt z →
     Py.apply_interest self
     = Some (Py.mkBankAccount (Py.owner self) (Py.account_type self)
               (Py.PInt (z + z * k))
               (Py.annual_interest_rate self) (Py.transactions self))) ∧
  (∀ self : Py.BankAccount,
     Py.account_type self = "checking" → Py.apply_interest self = Some self) ∧
  (∀ w self acc,
     account_at w self = Some acc → account_type acc = "savings" →
     apply_interest self w =
       Some (VNone,
             mkWorld (<[self := OBankAccount
                          (mkBankAccount (owner acc) (account_type acc)
                             (balance acc +
                                balance acc * annual_interest_rate acc)
                             (annual_interest_rate acc)
                             (transactions acc))]> (objs w)) (clock w))) ∧
  (∀ w self acc,
     account_at w self = Some acc → account_type acc = "checking" →
     apply_interest self w = Some (VNone, w)).
Proof.
  split; [|split; [|split; [|split; [|split; [|split]]]]].
  - intros self interest b' Hty Hmul Hadd. unfold Py.apply_interest.
    rewrite decide_True by done. rewrite Hmul; simpl.
    unfold Py.iadd_balance. by rewrite Hadd.
  - intros self r f Hty Hr Hb. unfold Py.apply_interest.
    rewrite decide_True by done.
    unfold Py.iadd_balance, Py.mul, Py.add. by rewrite Hr, Hb.
  - intros self r z f Hty Hr Hb Hf. unfold Py.apply_interest.
    rewrite decide_True by done.
    unfold Py.iadd_balance, Py.mul, Py.add. rewrite Hr, Hb.
    cbn [Py.to_float]. by rewrite Hf.
  - intros self k z Hty Hr Hb. unfold Py.apply_interest.
    rewrite decide_True by done.
    unfold Py.iadd_balance, Py.mul, Py.add. by rewrite Hr, Hb.
  - intros self Hty. unfold Py.apply_interest.
    by rewrite !decide_False by (rewrite Hty; discriminate).
  - intros w self acc Hacc Hty.
    exact (apply_interest_savings _ _ _ Hacc Hty).
  - intros w self acc Hacc Hty.
    apply (apply_interest_other _ _ _ Hacc); rewrite Hty; discriminate.
Qed.

Lemma apply_interest_cases w self acc :
  account_at w self = Some acc →
  apply_interest self w = Some (VNone, w) ∨
  ∃ b',
    apply_interest self w =
      Some (VNone,
            mkWorld (<[self := OBankAccount (set_balance b' acc)]> (objs w))
                    (clock w)).
Proof.
  intros Hacc.
  destruct (decide (account_type acc = "savings")) as [H1|H1].
  { right. eexists. exact (apply_interest_savings _ _ _ Hacc H1). }
  destruct (decide (account_type acc = "morgage_loan")) as [H2|H2].
  { right. eexists. exact (apply_interest_morgage_loan _ _ _ Hacc H2). }
  destruct (decide (account_type acc = "private_loan")) as [H3|H3].
  { right. eexists. exact (apply_interest_private_loan _ _ _ Hacc H3). }
  left. by apply (apply_interest_other _ _ _ Hacc).
Qed.

(** C7. Whatever the account type, [apply_interest()] returns normally,
    appends no transaction and leaves the owner, the account type, the
    interest rate and the transaction list as they were; the clock is
    not read either. Only the balance may change. *)
Theorem apply_interest_frame w self acc :
  account_at w self = Some acc →
  ∃ w' acc',
    apply_interest self w = Some (VNone, w') ∧
    account_at w' self = Some acc' ∧
    owner acc' = owner acc ∧
    account_type acc' = account_type acc ∧
    annual_interest_rate acc' = annual_interest_rate acc ∧
    transactions acc' = transactions acc ∧
    clock w' = clock w.
Proof.
  intros Hacc.
  destruct (apply_interest_cases w self acc Hacc) as [Hrun|[b' Hrun]].
  - by exists w, acc.
  - eexists _, (set_balance b' acc). split; [exact Hrun|].
    split; [apply account_at_store|done].
Qed.

(** ** Construction *)

Lemma BankAccount_new_run w o t b :
  ∃ l,
    BankAccount_new o t b w =
      Some (l, mkWorld (<[l := OBankAccount
                            (mkBankAccount o (lower t) b (Q2Qc (2 # 100)) [])]>
                          (objs w)) (clock w)) ∧
    objs w !! l = None.
Proof.
  exists (fresh (dom (objs w))). split; [reflexivity|].
  apply not_elem_of_dom, is_fresh.
Qed.

Lemma lower_chars t :
  lower t
  = string_of_list_ascii
      ((λ c, let n := nat_of_ascii c in
             if (65 <=? n)%nat && (n <=? 90)%nat
             then ascii_of_nat (n + 32) else c)
         <$> list_ascii_of_string t).
Proof.
  induction t as [|c t IH]; [done|].
  cbn [lower]. rewrite IH. reflexivity.
Qed.

(** C10. The constructor accepts any [account_type] string, in any
    world: the call returns a new instance with the owner, the balance,
    the rate 0.02 and no transactions, and nothing else changes; the
    type is stored lowercased, which for ASCII text means that the
    letters A-Z are replaced by a-z and every other character is kept.
    And on an account whose stored type is none of "savings",
    "morgage_loan", "private_loan", [apply_interest()] returns normally
    (None, no error value, no exception) and leaves the whole world
    unchanged. *)
Theorem unknown_account_type_is_silent :
  (∀ w o t (b : Qc),
     ∃ l a,
       BankAccount_new o t b w
       = Some (l, mkWorld (<[l := OBankAccount a]> (objs w)) (clock w)) ∧
       objs w !! l = None ∧
       owner a = o ∧ balance a = b ∧
       annual_interest_rate a = Q2Qc (2 # 100) ∧ transactions a = [] ∧
       (is_ascii t = true →
        account_type a
        = string_of_list_ascii
            ((λ c, let n := nat_of_ascii c in
                   if (65 <=? n)%nat && (n <=? 90)%nat
                   then ascii_of_nat (n + 32) else c)
               <$> list_ascii_of_string t))) ∧
  (∀ w self acc,
     account_at w self = Some acc →
     account_type acc ∉ ["savings"; "morgage_loan"; "private_loan"] →
     apply_interest self w = Some (VNone, w)).
Proof using Type.
  split.
  - intros w o t b.
    destruct (BankAccount_new_run w o t b) as (l & Hrun & Hfresh).
    exists l, (mkBankAccount o (lower t) b (Q2Qc (2 # 100)) []).
    split; [exact Hrun|]. repeat split; try done.
    intros _. apply lower_chars.
  - intros w self acc Hacc Hty.
    apply (apply_interest_other _ _ _ Hacc);
      intros Heq; apply Hty; rewrite Heq, list_elem_of_In; simpl; auto.
Qed.

(** ** Balance changes and the transaction list *)

Lemma deposit_cases w self amount r w' :
  deposit self amount w = Some (r, w') →
  w' = w ∨
  ∃ a, account_at w self = Some a ∧ w' = after_deposit w self a amount.
Proof.
  intros Hrun.
  destruct (decide (amount <= 0)) as [Hle|Hpos].
  { rewrite deposit_rejected in Hrun by done. left. congruence. }
  apply Qcnot_le_lt in Hpos.
  destruct (account_at w self) as [a|] eqn:Hacc.
  - rewrite (deposit_run _ _ _ _ Hacc Hpos) in Hrun. right. exists a.
    split; [done|congruence].
  - rewrite deposit_None in Hrun by done. discriminate.
Qed.

Lemma withdraw_cases w self amount r w' :
  withdraw self amount w = Some (r, w') →
  w' = w ∨
  ∃ a, account_at w self = Some a ∧ w' = after_withdraw w self a amount.
Proof.
  intros Hrun.
  destruct (account_at w self) as [a|] eqn:Hacc.
  - destruct (decide (amount <= 0 ∨ balance a < amount)) as [Hbad|Hok].
    + destruct (withdraw_rejected _ _ _ _ Hacc Hbad) as [msg Hmsg].
      left. congruence.
    + right. exists a. split; [done|].
      assert (0 < amount) as Hpos.
      { apply Qcnot_le_lt. intros ?. apply Hok. by left. }
      assert (amount <= balance a) as Hle.
      { apply Qcnot_lt_le. intros ?. apply Hok. by right. }
      rewrite (withdraw_run _ _ _ _ Hacc Hpos Hle) in Hrun. congruence.
  - unfold withdraw in Hrun.
    destruct (decide (amount <= 0)); [left; by inversion Hrun|].
    rewrite bind_None in Hrun by (by apply load_None). discriminate.
Qed.

Lemma deposit_records self amount :
  records_balance_change (deposit self amount).
Proof.
  intros w r w' l acc acc' Hrun Hl Hl' Hne.
  destruct (deposit_cases _ _ _ _ _ Hrun) as [->|(a & Ha & ->)];
    [congruence|].
  unfold after_deposit in Hl'.
  destruct (decide (self = l)) as [->|Hother].
  - rewrite account_at_store in Hl'.
    assert (a = acc) as -> by congruence.
    inversion Hl'; subst acc'; simpl. by eexists.
  - rewrite account_at_store_ne in Hl' by done.
    exfalso. apply Hne. f_equal.
    change (account_at w l = Some acc') in Hl'. congruence.
Qed.

Lemma withdraw_records self amount :
  records_balance_change (withdraw self amount).
Proof.
  intros w r w' l acc acc' Hrun Hl Hl' Hne.
  destruct (withdraw_cases _ _ _ _ _ Hrun) as [->|(a & Ha & ->)];
    [congruence|].
  unfold after_withdraw in Hl'.
  destruct (decide (self = l)) as [->|Hother].
  - rewrite account_at_store in Hl'.
    assert (a = acc) as -> by congruence.
    inversion Hl'; subst acc'; simpl. by eexists.
  - rewrite account_at_store_ne in Hl' by done.
    exfalso. apply Hne. f_equal.
    change (account_at w l = Some acc') in Hl'. congruence.
Qed.

Lemma prefix_append (p s : string) : String.prefix p (p +:+ s) = true.
Proof.
  induction p as [|c p IH]; simpl.
  - by destruct s.
  - by destruct (ascii_dec c c).
Qed.

(** C1, amended. For two different accounts A (balance [b]) and B
    (balance [c]) and an amount [a] with [0 < a <= b], the transfer of
    [a] from A to B leaves A at [b - a] with exactly one appended
    record, a transfer-out record holding [b - a], and leaves B at
    [c + a] with two appended records, the "deposit" of the credit leg
    followed by exactly one transfer-in record, both holding [c + a].
    Every balance change made by [deposit] or [withdraw] appends exactly
    one record holding the new balance. [apply_interest] appends no
    record, on any account. *)
Theorem balance_changes_recorded :
  (∀ w A B accA accB (a : Qc),
     A ≠ B →
     account_at w A = Some accA →
     account_at w B = Some accB →
     0 < a → a <= balance accA →
     ∃ w' t_out t_dep t_in,
       transfer A (VRef B) a w = Some (VNone, w') ∧
       t_out = mkTransaction
                 ("transfer to " +:+ "Bank account of " +:+ owner accB
                    +:+ " | Account type: " +:+ account_type accB
                    +:+ " | Balance: " +:+ format_num (balance accB + a)
                    +:+ ".")
                 a (balance accA - a) (strftime_now (S (S (clock w)))) ∧
       t_dep = mkTransaction "deposit" a (balance accB + a)
                             (strftime_now (clock w)) ∧
       t_in = mkTransaction ("transfer from " +:+ owner accA) a
                            (balance accB + a)
                            (strftime_now (S (clock w))) ∧
       account_at w' A =
         Some (mkBankAccount (owner accA) (account_type accA)
                 (balance accA - a) (annual_interest_rate accA)
                 (transactions accA ++ [t_out])) ∧
       account_at w' B =
         Some (mkBankAccount (owner accB) (account_type accB)
                 (balance accB + a) (annual_interest_rate accB)
                 (transactions accB ++ [t_dep; t_in])) ∧
       is_transfer_out t_out = true ∧
       is_transfer_in t_dep = false ∧
       is_transfer_in t_in = true) ∧
  (∀ self x,
     records_balance_change (deposit self x) ∧
     records_balance_change (withdraw self x)) ∧
  (∀ w self acc,
     account_at w self = Some acc →
     ∃ w' acc',
       apply_interest self w = Some (VNone, w') ∧
       account_at w' self = Some acc' ∧
       transactions acc' = transactions acc).
Proof.
  split; [|split].
  - intros w A B accA accB a Hne HA HB Hpos Hle.
    exists (after_transfer w A B accA accB a). do 3 eexists.
    split; [by apply transfer_run|].
    split; [reflexivity|]. split; [reflexivity|]. split; [reflexivity|].
    unfold after_transfer.
    split; [by rewrite account_at_store|].
    split; [by rewrite account_at_store_ne by done; rewrite account_at_store|].
    split; [apply prefix_append|]. split; [reflexivity|apply prefix_append].
  - intros self x. split; [apply deposit_records|apply withdraw_records].
  - intros w self acc Hacc.
    destruct (apply_interest_cases w self acc Hacc) as [Hrun|[b' Hrun]].
    + by exists w, acc.
    + eexists _, (set_balance b' acc). split; [exact Hrun|].
      split; [apply account_at_store|done].
Qed.

(** ** Bank.get_account *)

Lemma load_bank_Some w l b :
  objs w !! l = Some (OBank b) → load_bank l w = Some (b, w).
Proof. intros H. unfold load_bank. by rewrite H. Qed.

Lemma get_account_loop_spec w name accs :
  Forall (λ l, is_Some (account_at w l)) accs →
  (∃ pre l post acc,
     accs = pre ++ l :: post ∧
     account_at w l = Some acc ∧
     owner acc = name ∧
     (∀ l' acc', l' ∈ pre → account_at w l' = Some acc' →
                 owner acc' ≠ name) ∧
     get_account_loop accs name w = Some (VRef l, w))
  ∨
  ((∀ l acc, l ∈ accs → account_at w l = Some acc → owner acc ≠ name) ∧
   get_account_loop accs name w = Some (VStr "Account not found", w)).
Proof.
  induction 1 as [|l accs [acc Hacc] Hall IH].
  - right. split; [|reflexivity]. intros l acc Hin. by apply elem_of_nil in Hin.
  - simpl. rewrite (bind_Some _ _ _ _ _ (load_Some _ _ _ Hacc)).
    destruct (decide (owner acc = name)) as [Heq|Hneq].
    + left. exists [], l, accs, acc. repeat split; try done.
      intros l' acc' Hin. by apply elem_of_nil in Hin.
    + destruct IH as [(pre & l0 & post & acc0 & -> & H0 & Hown & Hpre & Hrun)
                     |[Hnone Hrun]].
      * left. exists (l :: pre), l0, post, acc0. repeat split; try done.
        intros l' acc' Hin Hl'. apply elem_of_cons in Hin as [->|Hin].
        -- congruence.
        -- by apply (Hpre l').
      * right. split; [|done].
        intros l' acc' Hin Hl'. apply elem_of_cons in Hin as [->|Hin].
        -- congruence.
        -- by apply (Hnone l').
Qed.

Lemma get_account_loop_first w name pre l post acc :
  Forall (λ l, is_Some (account_at w l)) pre →
  account_at w l = Some acc →
  owner acc = name →
  (∀ l' acc', l' ∈ pre → account_at w l' = Some acc' → owner acc' ≠ name) →
  get_account_loop (pre ++ l :: post) name w = Some (VRef l, w).
Proof.
  intros Hall Hacc Hown. induction Hall as [|l0 pre [acc0 Hacc0] Hall IH];
    intros Hpre; simpl.
  - rewrite (bind_Some _ _ _ _ _ (load_Some _ _ _ Hacc)).
    by rewrite decide_True.
  - rewrite (bind_Some _ _ _ _ _ (load_Some _ _ _ Hacc0)).
    rewrite decide_False.
    + apply IH. intros l' acc' Hin. apply Hpre. by right.
    + apply (Hpre l0); [by left|done].
Qed.

Lemma get_account_loop_none w name accs :
  Forall (λ l, is_Some (account_at w l)) accs →
  (∀ l acc, l ∈ accs → account_at w l = Some acc → owner acc ≠ name) →
  get_account_loop accs name w = Some (VStr "Account not found", w).
Proof.
  induction 1 as [|l accs [acc Hacc] Hall IH]; intros Hnone; simpl.
  - reflexivity.
  - rewrite (bind_Some _ _ _ _ _ (load_Some _ _ _ Hacc)).
    rewrite decide_False.
    + apply IH. intros l' acc' Hin. apply Hnone. by right.
    + apply (Hnone l); [by left|done].
Qed.

(** The lookup always answers: with the first match, or with the string. *)
Lemma get_account_total w self bk name :
  objs w !! self = Some (OBank bk) →
  Forall (λ l, is_Some (account_at w l)) (accounts bk) →
  (∃ pre l post acc,
     accounts bk = pre ++ l :: post ∧
     account_at w l = Some acc ∧
     owner acc = name ∧
     (∀ l' acc', l' ∈ pre → account_at w l' = Some acc' →
                 owner acc' ≠ name) ∧
     get_account self name w = Some (VRef l, w))
  ∨
  ((∀ l acc, l ∈ accounts bk → account_at w l = Some acc →
             owner acc ≠ name) ∧
   get_account self name w = Some (VStr "Account not found", w)).
Proof.
  intros Hbank Hall. unfold get_account.
  rewrite (bind_Some _ _ _ _ _ (load_bank_Some _ _ _ Hbank)).
  destruct (get_account_loop_spec w name _ Hall)
    as [(pre & l & post & acc & ? & ? & ? & ? & ?)|[? ?]].
  - left. by exists pre, l, post, acc.
  - by right.
Qed.

(** C8. On a bank whose stored entries are accounts, [get_account(name)]
    returns normally and changes nothing. It returns the first stored
    account whose owner is exactly [name]: the account at position [l]
    when the entries stored before it have other owners, whatever comes
    after it, further accounts of the same owner included. When no
    stored account has that owner it returns the string
    "Account not found", which is not an account. *)
Theorem get_account_spec w self bk (name : string) :
  objs w !! self = Some (OBank bk) →
  Forall (λ l, is_Some (account_at w l)) (accounts bk) →
  (∀ pre l post acc,
     accounts bk = pre ++ l :: post →
     account_at w l = Some acc →
     owner acc = name →
     (∀ l' acc', l' ∈ pre → account_at w l' = Some acc' →
                 owner acc' ≠ name) →
     get_account self name w = Some (VRef l, w))
  ∧
  ((∀ l acc, l ∈ accounts bk → account_at w l = Some acc →
             owner acc ≠ name) →
   get_account self name w = Some (VStr "Account not found", w) ∧
   is_BankAccount w (VStr "Account not found") = false).
Proof.
  intros Hbank Hall. unfold get_account.
  rewrite (bind_Some _ _ _ _ _ (load_bank_Some _ _ _ Hbank)). split.
  - intros pre l post acc Hsplit Hacc Hown Hpre. rewrite Hsplit.
    apply (get_account_loop_first _ _ _ _ _ acc); try done.
    rewrite Hsplit in Hall. by apply Forall_app in Hall as [? _].
  - intros Hnone. split; [|reflexivity].
    by apply get_account_loop_none.
Qed.

(** [create_account] keeps the bank's entries accounts, and appends the
    new one at the end of the list. *)
Lemma create_account_run w self bk o t b :
  objs w !! self = Some (OBank bk) →
  ∃ l,
    objs w !! l = None ∧
    create_account self o t b w =
      Some (VRef l,
            mkWorld (<[self := OBank (mkBank (accounts bk ++ [l]))]>
                       (<[l := OBankAccount
                                 (mkBankAccount o (lower t) b
                                    (Q2Qc (2 # 100)) [])]> (objs w)))
                    (clock w)).
Proof.
  intros Hbank.
  destruct (BankAccount_new_run w o t b) as (l & Hrun & Hfresh).
  exists l. split; [done|]. unfold create_account.
  rewrite (bind_Some _ _ _ _ _ Hrun).
  erewrite bind_Some; [|apply load_bank_Some; simpl].
  - reflexivity.
  - rewrite lookup_insert_ne; [done|]. intros ->. congruence.
Qed.

(** ** Every outcome of a transfer *)

Lemma transfer_self_exact w A accA amount :
  account_at w A = Some accA →
  0 < amount → amount <= balance accA →
  transfer A (VRef A) amount w =
    Some (VNone, after_self_transfer w A accA amount).
Proof.
  intros HA Hpos Hle. unfold transfer.
  erewrite bind_Some; [|reflexivity].
  rewrite (is_BankAccount_account _ _ _ HA); simpl.
  rewrite decide_False; [|by apply Qclt_not_le].
  rewrite (bind_Some _ _ _ _ _ (load_Some _ _ _ HA)).
  rewrite decide_False; [|by apply Qcle_not_lt].
  rewrite (bind_Some _ _ _ _ _ (deposit_run _ _ _ _ HA Hpos)).
  unfold after_deposit.
  erewrite bind_Some; [|apply load_Some; account_lookup HA].
  erewrite bind_Some; [|apply record_run; account_lookup HA].
  erewrite bind_Some; [|apply isub_balance_run; account_lookup HA].
  unfold BankAccount_str.
  erewrite bind_Some;
    [|erewrite bind_Some; [|apply load_Some; account_lookup HA];
      apply mret_run].
  erewrite bind_Some; [|apply record_run; account_lookup HA].
  rewrite mret_run. unfold after_self_transfer, self_transferred; simpl.
  rewrite !insert_insert_eq, <- !app_assoc. simpl. reflexivity.
Qed.

Lemma transfer_rejected_early w self target amount :
  is_BankAccount w target = false ∨ amount <= 0 →
  ∃ msg, transfer self target amount w = Some (VStr msg, w).
Proof.
  intros Hbad. unfold transfer.
  erewrite bind_Some; [|reflexivity].
  destruct (is_BankAccount w target); simpl; [|by eexists].
  destruct Hbad as [?|Hle]; [done|].
  rewrite decide_True by done. by eexists.
Qed.

Lemma transfer_rejected_funds w self target acc amount :
  account_at w self = Some acc → balance acc < amount →
  ∃ msg, transfer self target amount w = Some (VStr msg, w).
Proof.
  intros Hacc Hlt. unfold transfer.
  erewrite bind_Some; [|reflexivity].
  destruct (is_BankAccount w target); simpl; [|by eexists].
  destruct (decide (amount <= 0)); [by eexists|].
  rewrite (bind_Some _ _ _ _ _ (load_Some _ _ _ Hacc)).
  rewrite decide_True by done. by eexists.
Qed.

(** A sender without account attributes: reading [self.balance] raises. *)
Lemma transfer_sender_raises w self target amount :
  is_BankAccount w target = true → 0 < amount →
  account_at w self = None →
  transfer self target amount w = None.
Proof.
  intros Hinst Hpos Hnone. unfold transfer.
  erewrite bind_Some; [|reflexivity].
  rewrite Hinst; simpl.
  rewrite decide_False; [|by apply Qclt_not_le].
  by rewrite bind_None; [|apply load_None].
Qed.

(** A target that passes [isinstance] without being an account: the
    [deposit] on it raises, before anything is written. *)
Lemma transfer_target_raises w self target acc amount :
  account_at w self = Some acc →
  0 < amount → amount <= balance acc →
  is_BankAccount w (VRef target) = true →
  account_at w target = None →
  transfer self (VRef target) amount w = None.
Proof.
  intros Hacc Hpos Hle Hinst Hnone. unfold transfer.
  erewrite bind_Some; [|reflexivity].
  rewrite Hinst; simpl.
  rewrite decide_False; [|by apply Qclt_not_le].
  rewrite (bind_Some _ _ _ _ _ (load_Some _ _ _ Hacc)).
  rewrite decide_False; [|by apply Qcle_not_lt].
  by rewrite bind_None; [|apply deposit_None].
Qed.

Lemma transfer_cases w self target amount r w' :
  transfer self target amount w = Some (r, w') →
  w' = w ∨
  (∃ B accA accB,
     target = VRef B ∧ self ≠ B ∧
     account_at w self = Some accA ∧ account_at w B = Some accB ∧
     0 < amount ∧ amount <= balance accA ∧
     w' = after_transfer w self B accA accB amount) ∨
  (∃ accA,
     target = VRef self ∧ account_at w self = Some accA ∧
     0 < amount ∧ amount <= balance accA ∧
     w' = after_self_transfer w self accA amount).
Proof.
  intros Hrun.
  destruct (is_BankAccount w target) eqn:Hinst; cycle 1.
  { destruct (transfer_rejected_early w self target amount) as [msg Hmsg];
      [by left|]. left. congruence. }
  destruct (decide (amount <= 0)) as [Hle|Hpos].
  { destruct (transfer_rejected_early w self target amount) as [msg Hmsg];
      [by right|]. left. congruence. }
  apply Qcnot_le_lt in Hpos.
  destruct (account_at w self) as [accA|] eqn:HA; cycle 1.
  { rewrite transfer_sender_raises in Hrun by done. discriminate. }
  destruct (decide (balance accA < amount)) as [Hlt|Hle].
  { destruct (transfer_rejected_funds w self target accA amount) as [msg Hmsg];
      [done..|]. left. congruence. }
  apply Qcnot_lt_le in Hle.
  destruct target as [| | |B]; try discriminate Hinst.
  destruct (decide (self = B)) as [<-|Hne].
  { rewrite (transfer_self_exact _ _ _ _ HA Hpos Hle) in Hrun.
    right. right. exists accA. repeat split; try done. congruence. }
  destruct (account_at w B) as [accB|] eqn:HB.
  - rewrite (transfer_run _ _ _ _ _ _ Hne HA HB Hpos Hle) in Hrun.
    right. left. exists B, accA, accB. repeat split; try done. congruence.
  - rewrite (transfer_target_raises _ _ _ _ _ HA Hpos Hle Hinst HB) in Hrun.
    discriminate.
Qed.

(** ** What no operation does *)

Lemma account_kept_refl a : account_kept a a.
Proof. by repeat split. Qed.

Lemma account_kept_trans a1 a2 a3 :
  account_kept a1 a2 → account_kept a2 a3 → account_kept a1 a3.
Proof.
  intros (? & ? & ? & ?) (? & ? & ? & ?). repeat split; try congruence.
  by etrans.
Qed.

Lemma evolves_refl w : evolves w w.
Proof.
  split; [done|]. intros l.
  destruct (objs w !! l) as [[a|b]|]; try done.
  exists a. split; [done|apply account_kept_refl].
Qed.

Lemma evolves_trans w1 w2 w3 : evolves w1 w2 → evolves w2 w3 → evolves w1 w3.
Proof.
  intros [Hc12 H12] [Hc23 H23]. split; [lia|]. intros l.
  specialize (H12 l). specialize (H23 l).
  destruct (objs w1 !! l) as [[a|b]|].
  - destruct H12 as (a2 & Hl2 & Hk12). rewrite Hl2 in H23.
    destruct H23 as (a3 & Hl3 & Hk23). exists a3.
    split; [done|]. by apply (account_kept_trans _ a2).
  - by rewrite H12 in H23.
  - by rewrite H12 in H23.
Qed.

(** Rewriting one account by a kept version of itself, and moving the
    clock forward. *)
Lemma evolves_store w l a a' c :
  account_at w l = Some a → account_kept a a' → (clock w ≤ c)%nat →
  evolves w (mkWorld (<[l := OBankAccount a']> (objs w)) c).
Proof.
  intros Hacc Hkept Hc. split; [done|]. intros l'. simpl.
  destruct (decide (l = l')) as [<-|Hne].
  - unfold account_at in Hacc. rewrite lookup_insert_eq.
    destruct (objs w !! l) as [[a0|b]|]; try done.
    exists a'. split; [done|]. congruence.
  - rewrite lookup_insert_ne by done.
    destruct (objs w !! l') as [[a0|b]|]; try done.
    exists a0. split; [done|apply account_kept_refl].
Qed.

Lemma deposit_evolves w self amount r w' :
  deposit self amount w = Some (r, w') → evolves w w'.
Proof.
  intros Hrun.
  destruct (deposit_cases _ _ _ _ _ Hrun) as [->|(a & Ha & ->)];
    [apply evolves_refl|].
  apply (evolves_store w self a); [done| |simpl; lia].
  repeat split. by apply prefix_app_r.
Qed.

Lemma withdraw_evolves w self amount r w' :
  withdraw self amount w = Some (r, w') → evolves w w'.
Proof.
  intros Hrun.
  destruct (withdraw_cases _ _ _ _ _ Hrun) as [->|(a & Ha & ->)];
    [apply evolves_refl|].
  apply (evolves_store w self a); [done| |simpl; lia].
  repeat split. by apply prefix_app_r.
Qed.

Lemma apply_interest_evolves w self r w' :
  apply_interest self w = Some (r, w') → evolves w w'.
Proof.
  intros Hrun.
  destruct (account_at w self) as [a|] eqn:Ha.
  - destruct (apply_interest_cases _ _ _ Ha) as [Hw|[b' Hw]];
      rewrite Hw in Hrun; injection Hrun as _ <-.
    + apply evolves_refl.
    + apply (evolves_store w self a); [done| |done]. by repeat split.
  - unfold apply_interest in Hrun.
    rewrite bind_None in Hrun by (by apply load_None). discriminate.
Qed.

Lemma transfer_evolves w self target amount r w' :
  transfer self target amount w = Some (r, w') → evolves w w'.
Proof.
  intros Hrun.
  destruct (transfer_cases _ _ _ _ _ _ Hrun)
    as [->|[(B & accA & accB & -> & Hne & HA & HB & _ & _ & ->)
           |(accA & -> & HA & _ & _ & ->)]].
  - apply evolves_refl.
  - unfold after_transfer.
    set (w1 := mkWorld (<[B := OBankAccount (credited w accA accB amount)]>
                          (objs w)) (clock w)).
    apply (evolves_trans _ w1).
    + apply (evolves_store w B accB); [done| |done].
      repeat split. by apply prefix_app_r.
    + change (evolves w1
                (mkWorld (<[self := OBankAccount (debited w accA accB amount)]>
                            (objs w1)) (S (S (S (clock w)))))).
      apply (evolves_store w1 self accA).
      * unfold w1. by rewrite account_at_store_ne.
      * repeat split. by apply prefix_app_r.
      * simpl. lia.
  - unfold after_self_transfer.
    apply (evolves_store w self accA); [done| |simpl; lia].
    repeat split. by apply prefix_app_r.
Qed.

Lemma run_op_evolves op w r w' :
  run_op op w = Some (r, w') → evolves w w'.
Proof.
  destruct op; simpl.
  - apply deposit_evolves.
  - apply withdraw_evolves.
  - apply transfer_evolves.
  - apply apply_interest_evolves.
Qed.

Lemma run_ops_evolves ops w u w' :
  run_ops ops w = Some (u, w') → evolves w w'.
Proof.
  revert w. induction ops as [|op ops IH]; intros w Hrun; simpl in Hrun.
  - injection Hrun as _ <-. apply evolves_refl.
  - destruct (run_op op w) as [[r w1]|] eqn:Hop.
    + rewrite (bind_Some _ _ _ _ _ Hop) in Hrun.
      apply (evolves_trans _ w1); [by eapply run_op_evolves|by apply IH].
    + rewrite bind_None in Hrun by done. discriminate.
Qed.

Lemma evolves_account w w' l a :
  evolves w w' → account_at w l = Some a →
  ∃ a', account_at w' l = Some a' ∧ account_kept a a'.
Proof.
  intros [_ Hev] Hacc. specialize (Hev l). unfold account_at in *.
  destruct (objs w !! l) as [[a0|b]|]; try done.
  destruct Hev as (a' & Hl' & Hkept). exists a'. rewrite Hl'.
  split; [done|]. congruence.
Qed.

Lemma evolves_bank w w' l bk :
  evolves w w' → objs w !! l = Some (OBank bk) →
  objs w' !! l = Some (OBank bk).
Proof. intros [_ Hev] Hl. specialize (Hev l). by rewrite Hl in Hev. Qed.

(** X1. Through any sequence of deposit, withdraw, transfer and
    apply_interest calls that runs to its end, whatever each call
    returns, every account keeps its owner, its account type and its
    interest rate, and its transaction list only grows at the end: no
    recorded transaction is dropped, reordered or rewritten. *)
Theorem calls_keep_accounts ops w u w' l a :
  run_ops ops w = Some (u, w') →
  account_at w l = Some a →
  ∃ a' new,
    account_at w' l = Some a' ∧
    owner a' = owner a ∧
    account_type a' = account_type a ∧
    annual_interest_rate a' = annual_interest_rate a ∧
    transactions a' = transactions a ++ new.
Proof.
  intros Hrun Hacc.
  destruct (evolves_account _ _ _ _ (run_ops_evolves _ _ _ _ Hrun) Hacc)
    as (a' & Hacc' & Hown & Hty & Hrate & [new Hnew]).
  by exists a', new.
Qed.

Lemma get_account_loop_evolves w w' accs name v :
  evolves w w' →
  get_account_loop accs name w = Some (v, w) →
  get_account_loop accs name w' = Some (v, w').
Proof.
  intros Hev. induction accs as [|l accs IH]; simpl; intros Hrun.
  - rewrite mret_run in *. congruence.
  - destruct (account_at w l) as [a|] eqn:Hacc.
    + rewrite (bind_Some _ _ _ _ _ (load_Some _ _ _ Hacc)) in Hrun.
      destruct (evolves_account _ _ _ _ Hev Hacc) as (a' & Hacc' & Hown & _).
      rewrite (bind_Some _ _ _ _ _ (load_Some _ _ _ Hacc')). rewrite Hown.
      destruct (decide (owner a = name)).
      * rewrite mret_run in *. congruence.
      * by apply IH.
    + rewrite bind_None in Hrun by (by apply load_None). discriminate.
Qed.

(** X2. Account operations never touch a bank and never create or
    remove an instance; so after any sequence of them, whatever each
    call returns, [get_account] gives the answer it gave before, for
    every bank and every owner name. *)
Theorem calls_keep_lookup ops w u w' self name v :
  run_ops ops w = Some (u, w') →
  get_account self name w = Some (v, w) →
  get_account self name w' = Some (v, w') ∧
  (∀ l bk, objs w !! l = Some (OBank bk) → objs w' !! l = Some (OBank bk)) ∧
  (∀ l, objs w !! l = None → objs w' !! l = None).
Proof.
  intros Hrun Hget.
  pose proof (run_ops_evolves _ _ _ _ Hrun) as Hev.
  split; [|split].
  - unfold get_account in *.
    destruct (objs w !! self) as [[a|bk]|] eqn:Hself;
      try (rewrite bind_None in Hget by (unfold load_bank; by rewrite Hself);
           discriminate).
    rewrite (bind_Some _ _ _ _ _ (load_bank_Some _ _ _ Hself)) in Hget.
    rewrite (bind_Some _ _ _ _ _
               (load_bank_Some _ _ _ (evolves_bank _ _ _ _ Hev Hself))).
    by apply (get_account_loop_evolves w).
  - intros l bk. by apply evolves_bank.
  - intros l Hl. destruct Hev as [_ Hev]. specialize (Hev l).
    by rewrite Hl in Hev.
Qed.

(** ** Balances never go negative *)

Lemma deposit_outcome w self amount r w' :
  deposit self amount w = Some (r, w') →
  w' = w ∨
  ∃ a, account_at w self = Some a ∧ 0 < amount ∧
       w' = after_deposit w self a amount.
Proof.
  intros Hrun.
  destruct (decide (amount <= 0)) as [Hle|Hpos].
  { rewrite deposit_rejected in Hrun by done. left. congruence. }
  apply Qcnot_le_lt in Hpos.
  destruct (account_at w self) as [a|] eqn:Hacc.
  - rewrite (deposit_run _ _ _ _ Hacc Hpos) in Hrun. right. exists a.
    repeat split; [done|congruence].
  - rewrite deposit_None in Hrun by done. discriminate.
Qed.

Lemma withdraw_outcome w self amount r w' :
  withdraw self amount w = Some (r, w') →
  w' = w ∨
  ∃ a, account_at w self = Some a ∧ 0 < amount ∧ amount <= balance a ∧
       w' = after_withdraw w self a amount.
Proof.
  intros Hrun.
  destruct (withdraw_cases _ _ _ _ _ Hrun) as [->|(a & Ha & ->)]; [by left|].
  destruct (decide (amount <= 0 ∨ balance a < amount)) as [Hbad|Hok].
  - destruct (withdraw_rejected _ _ _ _ Ha Hbad) as [msg Hmsg].
    left. congruence.
  - right. exists a. repeat split; try done.
    + apply Qcnot_le_lt. intros ?. apply Hok. by left.
    + apply Qcnot_lt_le. intros ?. apply Hok. by right.
Qed.

Lemma solvent_store m c0 l a' c :
  solvent (mkWorld m c0) →
  0 <= balance a' → 0 <= annual_interest_rate a' →
  solvent (mkWorld (<[l := OBankAccount a']> m) c).
Proof.
  intros Hsol Hb Hr l0 a0 Hl0.
  destruct (decide (l = l0)) as [<-|Hne].
  - rewrite account_at_store in Hl0. by injection Hl0 as <-.
  - rewrite account_at_store_ne in Hl0 by done. by apply (Hsol l0).
Qed.

Lemma Qc_sub_nonneg (x y : Qc) : y <= x → 0 <= x - y.
Proof. intros H. by apply Qcle_minus_iff in H. Qed.

Lemma Qc_interest_nonneg (b k : Qc) : 0 <= b → 0 <= k → 0 <= b + b * k.
Proof.
  intros Hb Hk. apply Qcplus_nonneg_nonneg; [done|].
  by apply Qcmult_nonneg_nonneg.
Qed.

Lemma run_op_solvent op w r w' :
  solvent w → run_op op w = Some (r, w') → solvent w'.
Proof.
  intros Hsol Hrun. destruct op as [self x|self x|self tgt x|self]; simpl in Hrun.
  - destruct (deposit_outcome _ _ _ _ _ Hrun) as [->|(a & Ha & Hpos & ->)];
      [done|].
    destruct (Hsol _ _ Ha) as [Hb Hr].
    apply (solvent_store _ (clock w)); simpl; [done| |done].
    apply Qcplus_nonneg_nonneg; [done|by apply Qclt_le_weak].
  - destruct (withdraw_outcome _ _ _ _ _ Hrun)
      as [->|(a & Ha & Hpos & Hle & ->)]; [done|].
    destruct (Hsol _ _ Ha) as [Hb Hr].
    apply (solvent_store _ (clock w)); simpl; [done| |done]. by apply Qc_sub_nonneg.
  - destruct (transfer_cases _ _ _ _ _ _ Hrun)
      as [->|[(B & accA & accB & -> & Hne & HA & HB & Hpos & Hle & ->)
             |(accA & -> & HA & Hpos & Hle & ->)]]; [done| |].
    + destruct (Hsol _ _ HA) as [HbA HrA]. destruct (Hsol _ _ HB) as [HbB HrB].
      unfold after_transfer.
      apply (solvent_store _ (clock w)); simpl; [| |done].
      * apply (solvent_store _ (clock w)); simpl; [done| |done].
        apply Qcplus_nonneg_nonneg; [done|by apply Qclt_le_weak].
      * by apply Qc_sub_nonneg.
    + destruct (Hsol _ _ HA) as [HbA HrA].
      apply (solvent_store _ (clock w)); simpl; [done| |done].
      replace (balance accA + x - x) with (balance accA) by ring. done.
  - destruct (account_at w self) as [a|] eqn:Ha; cycle 1.
    { unfold apply_interest in Hrun.
      rewrite bind_None in Hrun by (by apply load_None). discriminate. }
    destruct (Hsol _ _ Ha) as [Hb Hr].
    assert (0 <= Q2Qc 2) as H2 by (vm_compute; discriminate).
    assert (0 <= Q2Qc 5) as H5 by (vm_compute; discriminate).
    destruct (decide (account_type a = "savings")) as [H1|H1].
    { rewrite (apply_interest_savings _ _ _ Ha H1) in Hrun.
      injection Hrun as _ <-. apply (solvent_store _ (clock w)); simpl; [done| |done].
      by apply Qc_interest_nonneg. }
    destruct (decide (account_type a = "morgage_loan")) as [Hm|Hm].
    { rewrite (apply_interest_morgage_loan _ _ _ Ha Hm) in Hrun.
      injection Hrun as _ <-. apply (solvent_store _ (clock w)); simpl; [done| |done].
      apply Qcmult_nonneg_nonneg; [done|].
      apply Qcplus_nonneg_nonneg; [vm_compute; discriminate|].
      by apply Qcmult_nonneg_nonneg. }
    destruct (decide (account_type a = "private_loan")) as [Hp|Hp].
    { rewrite (apply_interest_private_loan _ _ _ Ha Hp) in Hrun.
      injection Hrun as _ <-. apply (solvent_store _ (clock w)); simpl; [done| |done].
      apply Qcmult_nonneg_nonneg; [done|].
      apply Qcplus_nonneg_nonneg; [vm_compute; discriminate|].
      by apply Qcmult_nonneg_nonneg. }
    rewrite (apply_interest_other _ _ _ Ha H1 Hm Hp) in Hrun.
    by injection Hrun as _ <-.
Qed.

(** X3. When no account has a negative balance or a negative interest
    rate, no sequence of deposit, withdraw, transfer and apply_interest
    calls makes a balance negative: a withdrawal or a transfer never
    overdraws, whatever the amounts asked for. *)
Theorem calls_keep_solvent ops w u w' :
  solvent w → run_ops ops w = Some (u, w') → solvent w'.
Proof.
  revert w. induction ops as [|op ops IH]; intros w Hsol Hrun; simpl in Hrun.
  - by injection Hrun as _ <-.
  - destruct (run_op op w) as [[r w1]|] eqn:Hop.
    + rewrite (bind_Some _ _ _ _ _ Hop) in Hrun.
      apply (IH w1); [by eapply run_op_solvent|done].
    + rewrite bind_None in Hrun by done. discriminate.
Qed.

(** ** Bank.total_assets *)










Lemma stores_accounts_evolves w w' bk :
  evolves w w' → stores_accounts w bk → stores_accounts w' bk.
Proof.
  intros Hev Hall. unfold stores_accounts in *.
  apply (Forall_impl _ _ _ Hall).
  intros l [a Ha]. destruct (evolves_account _ _ _ _ Hev Ha) as (a' & Ha' & _).
  by exists a'.
Qed.

Lemma stores_accounts_lookup w bk l :
  stores_accounts w bk → l ∈ accounts bk → ∃ a, account_at w l = Some a.
Proof.
  intros Hall Hin. unfold stores_accounts in Hall.
  rewrite Forall_forall in Hall. by apply Hall.
Qed.



(** ** Bank.create_account *)

Lemma get_account_loop_app w xs ys name :
  get_account_loop (xs ++ ys) name w =
    match get_account_loop xs name w with
    | Some (VStr _, w1) => get_account_loop ys name w1
    | r => r
    end.
Proof.
  induction xs as [|l xs IH]; simpl; [done|].
  destruct (account_at w l) as [a|] eqn:Ha.
  - rewrite !(bind_Some _ _ _ _ _ (load_Some _ _ _ Ha)).
    by destruct (decide (owner a = name)).
  - by rewrite !bind_None by (by apply load_None).
Qed.

Lemma get_account_loop_agree w w' accs name v :
  (∀ l a, account_at w l = Some a → account_at w' l = Some a) →
  get_account_loop accs name w = Some (v, w) →
  get_account_loop accs name w' = Some (v, w').
Proof.
  intros Hag. induction accs as [|l accs IH]; simpl; intros Hrun.
  - rewrite mret_run in *. congruence.
  - destruct (account_at w l) as [a|] eqn:Hacc.
    + rewrite (bind_Some _ _ _ _ _ (load_Some _ _ _ Hacc)) in Hrun.
      rewrite (bind_Some _ _ _ _ _ (load_Some _ _ _ (Hag _ _ Hacc))).
      destruct (decide (owner a = name)).
      * rewrite mret_run in *. congruence.
      * by apply IH.
    + rewrite bind_None in Hrun by (by apply load_None). discriminate.
Qed.

(** The world after [create_account] on the bank [bk] at [self], the new
    instance being at [l]. *)
Lemma create_account_accounts w self bk l new c l0 a0 :
  objs w !! self = Some (OBank bk) →
  objs w !! l = None →
  account_at w l0 = Some a0 →
  account_at
    (mkWorld (<[self := OBank (mkBank (accounts bk ++ [l]))]>
                (<[l := OBankAccount new]> (objs w))) c) l0 = Some a0.
Proof.
  intros Hbank Hfresh Ha0. unfold account_at in *. simpl.
  rewrite !lookup_insert_ne; [done|intros ->|intros ->].
  - by rewrite Hfresh in Ha0.
  - by rewrite Hbank in Ha0.
Qed.

Lemma create_account_new w self bk l new c :
  objs w !! self = Some (OBank bk) →
  objs w !! l = None →
  account_at
    (mkWorld (<[self := OBank (mkBank (accounts bk ++ [l]))]>
                (<[l := OBankAccount new]> (objs w))) c) l = Some new.
Proof.
  intros Hbank Hfresh. unfold account_at. simpl.
  rewrite lookup_insert_ne by (intros ->; congruence).
  by rewrite lookup_insert_eq.
Qed.

(** X7. Creating an account and looking owners up. [create_account]
    on a bank always succeeds and returns a reference no instance had
    before, to an account built by the constructor. Afterwards a lookup
    that found an account before finds the same one (also for the new
    owner's name: the older account wins), the new owner's name, if it
    was not found before, now finds the new account, and any other name
    that was not found is still not found. *)
Theorem create_account_lookup w self bk o t (b : Qc) :
  objs w !! self = Some (OBank bk) →
  ∃ l w',
    create_account self o t b w = Some (VRef l, w') ∧
    objs w !! l = None ∧
    account_at w' l = Some (BankAccount_init o t b) ∧
    (∀ name l0,
       get_account self name w = Some (VRef l0, w) →
       get_account self name w' = Some (VRef l0, w')) ∧
    (get_account self o w = Some (VStr "Account not found", w) →
     get_account self o w' = Some (VRef l, w')) ∧
    (∀ name,
       name ≠ o →
       get_account self name w = Some (VStr "Account not found", w) →
       get_account self name w' = Some (VStr "Account not found", w')).
Proof.
  intros Hbank.
  destruct (create_account_run w self bk o t b Hbank) as (l & Hfresh & Hrun).
  eexists l, _. split; [exact Hrun|]. split; [done|].
  set (w' := mkWorld _ _).
  assert (account_at w' l = Some (BankAccount_init o t b)) as Hnew
    by (by apply create_account_new).
  assert (∀ l0 a0, account_at w l0 = Some a0 → account_at w' l0 = Some a0)
    as Hold by (intros; by apply create_account_accounts).
  assert (∀ name, get_account self name w' =
                  get_account_loop (accounts bk ++ [l]) name w') as Hget'.
  { intros name. unfold get_account.
    apply (bind_Some (load_bank self)
             (λ b0 : Bank, get_account_loop (accounts b0) name)
             w' (mkBank (accounts bk ++ [l])) w').
    apply load_bank_Some. unfold w'; simpl. by rewrite lookup_insert_eq. }
  assert (∀ name v, get_account self name w = Some (v, w) →
                    get_account_loop (accounts bk) name w' = Some (v, w'))
    as Hloop.
  { intros name v Hget. unfold get_account in Hget.
    rewrite (bind_Some _ _ _ _ _ (load_bank_Some _ _ _ Hbank)) in Hget.
    by apply (get_account_loop_agree w). }
  split; [done|]. split; [|split].
  - intros name l0 Hget.
    by rewrite Hget', get_account_loop_app, (Hloop _ _ Hget).
  - intros Hget.
    rewrite Hget', get_account_loop_app, (Hloop _ _ Hget). simpl.
    rewrite (bind_Some _ _ _ _ _ (load_Some _ _ _ Hnew)).
    by rewrite decide_True.
  - intros name Hne Hget.
    rewrite Hget', get_account_loop_app, (Hloop _ _ Hget). simpl.
    rewrite (bind_Some _ _ _ _ _ (load_Some _ _ _ Hnew)).
    rewrite decide_False; [done|]. simpl. congruence.
Qed.


Lemma bank_ok_evolves w w' self :
  evolves w w' → bank_ok w self → bank_ok w' self.
Proof.
  intros Hev (bk & Hbank & Hall & Hnd). exists bk.
  split; [by apply (evolves_bank w)|].
  split; [by apply (stores_accounts_evolves w)|done].
Qed.

(** X9. A bank made by [Bank()] and filled by [create_account] is in
    good order and stays so: its entries are accounts and no account is
    stored twice. A new bank has no entries, [create_account] keeps the
    order of the bank it is called on, and so does every sequence of
    deposit, withdraw, transfer and apply_interest calls. *)
Theorem bank_order_kept :
  (∀ w l w', Bank_new w = Some (l, w') →
             objs w' !! l = Some (OBank (mkBank [])) ∧ bank_ok w' l) ∧
  (∀ w self o t b r w',
     bank_ok w self →
     create_account self o t b w = Some (r, w') → bank_ok w' self) ∧
  (∀ ops w u w' self,
     bank_ok w self → run_ops ops w = Some (u, w') → bank_ok w' self).
Proof.
  split; [|split].
  - intros w l w' Hrun. unfold Bank_new, alloc in Hrun.
    injection Hrun as <- <-.
    assert (objs (mkWorld (<[fresh (dom (objs w)) := OBank (mkBank [])]>
                             (objs w)) (clock w))
              !! fresh (dom (objs w)) = Some (OBank (mkBank []))) as Hl
      by (simpl; by rewrite lookup_insert_eq).
    split; [done|]. exists (mkBank []). split; [done|].
    split; [constructor|constructor].
  - intros w self o t b r w' (bk & Hbank & Hall & Hnd) Hrun.
    destruct (create_account_run w self bk o t b Hbank) as (l & Hfresh & Hrun').
    rewrite Hrun' in Hrun. injection Hrun as _ <-.
    exists (mkBank (accounts bk ++ [l])).
    split; [simpl; by rewrite lookup_insert_eq|]. split.
    + unfold stores_accounts; simpl. apply Forall_app. split.
      * apply (Forall_impl _ _ _ Hall). intros l0 [a0 Ha0].
        exists a0. by apply create_account_accounts.
      * repeat constructor. eexists. by apply create_account_new.
    + simpl. apply NoDup_app. split; [done|]. split; [|apply NoDup_singleton].
      intros l0 Hin Hl0. apply list_elem_of_singleton in Hl0 as ->.
      destruct (stores_accounts_lookup _ _ _ Hall Hin) as [a0 Ha0].
      unfold account_at in Ha0. by rewrite Hfresh in Ha0.
  - intros ops w u w' self Hok Hrun.
    pose proof (run_ops_evolves _ _ _ _ Hrun) as Hev.
    by apply (bank_ok_evolves w).
Qed.

(** ** Calls in a row, and edges *)


Lemma is_BankAccount_bank w l bk :
  objs w !! l = Some (OBank bk) → is_BankAccount w (VRef l) = true.
Proof.
  intros H. unfold is_BankAccount. apply bool_decide_eq_true. by rewrite H.
Qed.

Lemma account_at_bank w l bk :
  objs w !! l = Some (OBank bk) → account_at w l = None.
Proof. intros H. unfold account_at. by rewrite H. Qed.

(** X11. A [Bank] instance is a [BankAccount] for [isinstance] (the
    class inherits from it) but has no balance: [Bank.__init__] does not
    call the parent constructor. So a transfer to a bank is not turned
    down as a wrong target; with a valid amount and enough funds it
    raises, and so do a deposit or withdrawal of a positive amount and
    [apply_interest] called on the bank itself. *)
Theorem bank_instance_as_account w self acc B bk (x : Qc) :
  account_at w self = Some acc →
  objs w !! B = Some (OBank bk) →
  0 < x → x <= balance acc →
  is_BankAccount w (VRef B) = true ∧
  transfer self (VRef B) x w = None ∧
  deposit B x w = None ∧
  withdraw B x w = None ∧
  apply_interest B w = None.
Proof.
  intros Hacc Hbank Hpos Hle.
  pose proof (is_BankAccount_bank _ _ _ Hbank) as Hinst.
  pose proof (account_at_bank _ _ _ Hbank) as Hnone.
  split; [done|]. split; [by apply (transfer_target_raises _ _ _ acc)|].
  split; [by apply deposit_None|]. split.
  - unfold withdraw. rewrite decide_False; [|by apply Qclt_not_le].
    by rewrite bind_None; [|apply load_None].
  - unfold apply_interest. by rewrite bind_None; [|apply load_None].
Qed.


(** X13. The order of the checks of [transfer] and what each returns.
    A target that is not a BankAccount instance is turned down first,
    whatever the amount and the sender; then an amount that is not
    positive; then an amount above the sender's balance, with a message
    that quotes the balance. In each case nothing changes. *)
Theorem transfer_rejections w self target acc (x : Qc) :
  account_at w self = Some acc →
  (is_BankAccount w target = false →
   transfer self target x w
   = Some (VStr "Target account must be a bank account", w)) ∧
  (is_BankAccount w target = true → x <= 0 →
   transfer self target x w
   = Some (VStr "Transfer amount has to be positve number!", w)) ∧
  (is_BankAccount w target = true → 0 < x → balance acc < x →
   transfer self target x w
   = Some (VStr ("Not enough money remaining! Current balance: "
                   +:+ format_num (balance acc) +:+ "."), w)).
Proof.
  intros Hacc. unfold transfer. split; [|split].
  - intros Hinst. erewrite bind_Some; [|reflexivity]. by rewrite Hinst.
  - intros Hinst Hle. erewrite bind_Some; [|reflexivity]. rewrite Hinst; simpl.
    by rewrite decide_True.
  - intros Hinst Hpos Hlt. erewrite bind_Some; [|reflexivity].
    rewrite Hinst; simpl.
    rewrite decide_False; [|by apply Qclt_not_le].
    rewrite (bind_Some _ _ _ _ _ (load_Some _ _ _ Hacc)).
    by rewrite decide_True.
Qed.

(** ** What is printed *)

Lemma history_loop_app ts1 ts2 :
  history_loop (ts1 ++ ts2) = history_loop ts1 ++ history_loop ts2.
Proof. induction ts1 as [|t ts1 IH]; simpl; [done|]. by rewrite IH. Qed.

Lemma history_loop_length ts :
  length (history_loop ts) = (2 * length ts)%nat.
Proof. induction ts as [|t ts IH]; simpl; [done|]. rewrite IH. lia. Qed.

Lemma history_loop_lines ts :
  history_loop ts
  = concat ((λ t, [separator; dict_str t]) <$> ts).
Proof. induction ts as [|t ts IH]; simpl; [done|]. by rewrite IH. Qed.

(** X14. [history()] changes nothing and prints, for each recorded
    transaction, oldest first, a line of 89 dashes and then the dict
    with its four entries (action, amount, balance after, time). After
    any sequence of deposit, withdraw, transfer and apply_interest calls
    it prints the lines it printed before, followed by the lines of the
    transactions recorded since, in the order they were recorded. *)
Theorem history_grows ops w u w' self a :
  account_at w self = Some a →
  run_ops ops w = Some (u, w') →
  let dashes :=
    "-----------------------------------------------------------------------------------------" in
  let line t :=
    "{'Action': " +:+ repr_str (Action t) +:+
    ", 'Amount': " +:+ format_num (Amount t) +:+
    ", 'Balance': " +:+ format_num (Balance t) +:+
    ", 'Time': " +:+ repr_str (Time t) +:+ "}" in
  let printed ts := concat ((λ t, [dashes; line t]) <$> ts) in
  String.length dashes = 89%nat ∧
  ∃ a' new,
    account_at w' self = Some a' ∧
    transactions a' = transactions a ++ new ∧
    history self w = Some (printed (transactions a), w) ∧
    history self w'
    = Some (printed (transactions a) ++ printed new, w').
Proof.
  intros Hacc Hrun dashes line printed. split; [reflexivity|].
  destruct (evolves_account _ _ _ _ (run_ops_evolves _ _ _ _ Hrun) Hacc)
    as (a' & Hacc' & _ & _ & _ & [new Hnew]).
  exists a', new. split; [done|]. split; [done|].
  unfold history.
  rewrite (bind_Some _ _ _ _ _ (load_Some _ _ _ Hacc)).
  rewrite (bind_Some _ _ _ _ _ (load_Some _ _ _ Hacc')).
  rewrite !mret_run, Hnew, history_loop_app, !history_loop_lines.
  done.
Qed.

Lemma BankAccount_str_run w l a :
  account_at w l = Some a → BankAccount_str l w = Some (account_str a, w).
Proof.
  intros Ha. unfold BankAccount_str.
  by rewrite (bind_Some _ _ _ _ _ (load_Some _ _ _ Ha)).
Qed.

Lemma list_accounts_loop_run w accs (stored : list BankAccount) :
  Forall2 (λ l a, account_at w l = Some a) accs stored →
  list_accounts_loop accs w = Some (account_str <$> stored, w).
Proof.
  induction 1 as [|l a accs stored Ha _ IH]; simpl; [done|].
  rewrite (bind_Some _ _ _ _ _ (BankAccount_str_run _ _ _ Ha)).
  by rewrite (bind_Some _ _ _ _ _ IH).
Qed.

(** X15. [list_accounts()] prints one line for each stored account, in
    storage order, the line being the account's [str] with its current
    balance, and changes nothing. After [create_account] it prints the
    same lines followed by the line of the new account. *)
Theorem list_accounts_lines w self bk (stored : list BankAccount) o t
    (b : Qc) :
  objs w !! self = Some (OBank bk) →
  Forall2 (λ l a, account_at w l = Some a) (accounts bk) stored →
  list_accounts self w = Some (account_str <$> stored, w) ∧
  ∃ l w',
    create_account self o t b w = Some (VRef l, w') ∧
    list_accounts self w'
    = Some ((account_str <$> stored)
              ++ [account_str (BankAccount_init o t b)], w').
Proof.
  intros Hbank Hstored. split.
  - unfold list_accounts.
    rewrite (bind_Some _ _ _ _ _ (load_bank_Some _ _ _ Hbank)).
    by apply list_accounts_loop_run.
  - destruct (create_account_run w self bk o t b Hbank)
      as (l & Hfresh & Hrun).
    eexists l, _. split; [exact Hrun|].
    set (w' := mkWorld _ _).
    unfold list_accounts.
    rewrite (bind_Some (load_bank self) _ w'
               (mkBank (accounts bk ++ [l])) w'); cycle 1.
    { apply load_bank_Some. unfold w'; simpl. by rewrite lookup_insert_eq. }
    simpl.
    rewrite (list_accounts_loop_run w' _
               (stored ++ [BankAccount_init o t b])).
    + by rewrite fmap_app.
    + apply Forall2_app.
      * apply (Forall2_impl _ _ _ _ Hstored). intros l0 a0 Ha0.
        by apply create_account_accounts.
      * repeat constructor. by apply create_account_new.
Qed.

(** ** What a call leaves alone *)

(** X17. A call writes to its own accounts only: a deposit, a
    withdrawal or [apply_interest] to the account it is called on, a
    transfer to the sender and the target. Every other instance, account
    or bank, is exactly as before, whether the call succeeded or was
    rejected. *)
Theorem calls_touch_own_accounts op w r w' l :
  run_op op w = Some (r, w') →
  l ∉ op_accounts op →
  objs w' !! l = objs w !! l.
Proof.
  intros Hrun Hnotin.
  destruct op as [self x|self x|self tgt x|self]; simpl in Hrun, Hnotin.
  - apply not_elem_of_cons in Hnotin as [Hne _].
    destruct (deposit_cases _ _ _ _ _ Hrun) as [->|(a & Ha & ->)]; [done|].
    simpl. by rewrite lookup_insert_ne.
  - apply not_elem_of_cons in Hnotin as [Hne _].
    destruct (withdraw_cases _ _ _ _ _ Hrun) as [->|(a & Ha & ->)]; [done|].
    simpl. by rewrite lookup_insert_ne.
  - destruct (transfer_cases _ _ _ _ _ _ Hrun)
      as [->|[(B & accA & accB & -> & _ & _ & _ & _ & _ & ->)
             |(accA & -> & _ & _ & _ & ->)]]; [done| |].
    + apply not_elem_of_cons in Hnotin as [HneA Hnotin].
      apply not_elem_of_cons in Hnotin as [HneB _].
      simpl. by rewrite !lookup_insert_ne.
    + apply not_elem_of_cons in Hnotin as [HneA _].
      simpl. by rewrite lookup_insert_ne.
  - apply not_elem_of_cons in Hnotin as [Hne _].
    destruct (account_at w self) as [a|] eqn:Ha.
    + destruct (apply_interest_cases _ _ _ Ha) as [Hw|[b' Hw]];
        rewrite Hw in Hrun; injection Hrun as _ <-; [done|].
      simpl. by rewrite lookup_insert_ne.
    + unfold apply_interest in Hrun.
      rewrite bind_None in Hrun by (by apply load_None). discriminate.
Qed.

End Program.

(** * The statements on sample data *)

Lemma sample_alice : account_at sample_world alice_ref = Some alice.
Proof. reflexivity. Qed.

Lemma sample_bob : account_at sample_world bob_ref = Some bob.
Proof. reflexivity. Qed.

Lemma sample_carol : account_at sample_world carol_ref = Some carol.
Proof. reflexivity. Qed.

(** Alice (savings, 100) deposits 50: the example of the specification. *)
Lemma deposit_spec_witness :
  (∃ msg, deposit sample_time alice_ref (Q2Qc (-5)) sample_world
          = Some (VStr msg, sample_world)) ∧
  (∃ w', deposit sample_time alice_ref (Q2Qc 50) sample_world
         = Some (VNone, w') ∧
         account_at w' alice_ref =
           Some (mkBankAccount "Alice" "savings" (Q2Qc 100 + Q2Qc 50)
                   (Q2Qc (2 # 100))
                   [mkTransaction "deposit" (Q2Qc 50) (Q2Qc 100 + Q2Qc 50)
                                  "2024/01/01, 00:00:00"])).
Proof.
  split.
  - apply (proj1 (deposit_spec sample_time sample_world alice_ref alice
                    (Q2Qc (-5)) eq_refl)).
    vm_compute. discriminate.
  - apply (proj2 (deposit_spec sample_time sample_world alice_ref alice
                    (Q2Qc 50) eq_refl)).
    reflexivity.
Defined.

Lemma withdraw_spec_witness :
  (∃ msg, withdraw sample_time sample_format alice_ref (Q2Qc (-1))
            sample_world = Some (VStr msg, sample_world)) ∧
  (∃ msg, withdraw sample_time sample_format alice_ref (Q2Qc 500)
            sample_world = Some (VStr msg, sample_world)) ∧
  (∃ w', withdraw sample_time sample_format alice_ref (Q2Qc 30) sample_world
         = Some (VNone, w') ∧
         account_at w' alice_ref =
           Some (mkBankAccount "Alice" "savings" (Q2Qc 100 - Q2Qc 30)
                   (Q2Qc (2 # 100))
                   [mkTransaction "withdraw" (Q2Qc 30) (Q2Qc 100 - Q2Qc 30)
                                  "2024/01/01, 00:00:00"])).
Proof.
  split; [|split].
  - apply (proj1 (withdraw_spec sample_time sample_format sample_world
                    alice_ref alice (Q2Qc (-1)) eq_refl)).
    left. vm_compute. discriminate.
  - apply (proj1 (withdraw_spec sample_time sample_format sample_world
                    alice_ref alice (Q2Qc 500) eq_refl)).
    right. reflexivity.
  - apply (proj2 (proj2 (withdraw_spec sample_time sample_format sample_world
                           alice_ref alice (Q2Qc 30) eq_refl))).
    split; [reflexivity|vm_compute; discriminate].
Defined.

(** Alice sends 30 to Bob (balance 5). *)
Lemma transfer_balances_distinct_witness :
  ∃ r w' accA' accB',
    transfer sample_time sample_format alice_ref (VRef bob_ref) (Q2Qc 30)
      sample_world = Some (r, w') ∧
    account_at w' alice_ref = Some accA' ∧
    account_at w' bob_ref = Some accB' ∧
    balance accA' = Q2Qc 100 - Q2Qc 30 ∧
    balance accB' = Q2Qc 5 + Q2Qc 30.
Proof.
  refine (transfer_balances_distinct sample_time sample_format sample_world
            alice_ref bob_ref (Q2Qc 30) _ alice bob _ _ _ _).
  - discriminate.
  - reflexivity.
  - reflexivity.
  - reflexivity.
  - vm_compute. discriminate.
Defined.

(** C3 as stated fails when the two accounts are one and the same: Alice
    sends 30 to herself. The single balance cannot be both [100 - 30]
    and [100 + 30]. *)
Lemma transfer_to_self_counterexample :
  ¬ transfer_moves_balance sample_time sample_format sample_world
      alice_ref alice_ref (Q2Qc 30).
Proof.
  intros H.
  destruct (H alice alice) as (r & w' & accA' & accB' & _ & HA & HB & HbA & HbB).
  - reflexivity.
  - reflexivity.
  - reflexivity.
  - vm_compute. discriminate.
  - rewrite HA in HB. injection HB as ->.
    rewrite HbA in HbB. apply (f_equal this) in HbB.
    vm_compute in HbB. discriminate.
Qed.

(** What the program does there: the transfer succeeds, Alice's balance
    is 100 again and three records were appended. *)
Lemma transfer_to_self_sample :
  ∃ w' acc',
    transfer sample_time sample_format alice_ref (VRef alice_ref) (Q2Qc 30)
      sample_world = Some (VNone, w') ∧
    account_at w' alice_ref = Some acc' ∧
    balance acc' = Q2Qc 100 ∧
    length (transactions acc') = 3%nat.
Proof.
  apply (transfer_self_run sample_time sample_format sample_world
           alice_ref alice (Q2Qc 30)).
  - reflexivity.
  - reflexivity.
  - vm_compute. discriminate.
Qed.

Lemma transfer_failure_frame_witness :
  (∃ msg, transfer sample_time sample_format alice_ref (VStr "Bob")
            (Q2Qc 30) sample_world = Some (VStr msg, sample_world)) ∧
  (∃ msg, transfer sample_time sample_format alice_ref (VRef bob_ref)
            (Q2Qc 0) sample_world = Some (VStr msg, sample_world)) ∧
  (∃ msg, transfer sample_time sample_format alice_ref (VRef bob_ref)
            (Q2Qc 500) sample_world = Some (VStr msg, sample_world)).
Proof.
  split; [|split].
  - apply (transfer_failure_frame sample_time sample_format sample_world
             alice_ref (VStr "Bob") alice (Q2Qc 30) eq_refl).
    left. reflexivity.
  - apply (transfer_failure_frame sample_time sample_format sample_world
             alice_ref (VRef bob_ref) alice (Q2Qc 0) eq_refl).
    right. left. vm_compute. discriminate.
  - apply (transfer_failure_frame sample_time sample_format sample_world
             alice_ref (VRef bob_ref) alice (Q2Qc 500) eq_refl).
    right. right. reflexivity.
Defined.

(** Alice's savings of 100 at the constructor's rate: 102.0 in Python's
    numbers, 102 on the object store; Bob's checking account is left
    alone. *)
Lemma apply_interest_savings_checking_witness :
  Py.apply_interest (Py.BankAccount_init "Alice" "Savings" (Py.PInt 100))
  = Some (Py.mkBankAccount "Alice" "savings" (Py.PFloat 102)
            (Py.PFloat 0x1.47ae147ae147bp-6) []) ∧
  Py.apply_interest (Py.BankAccount_init "Bob" "checking" (Py.PInt 5))
  = Some (Py.BankAccount_init "Bob" "checking" (Py.PInt 5)) ∧
  apply_interest alice_ref sample_world =
    Some (VNone,
          mkWorld (<[alice_ref := OBankAccount
                       (mkBankAccount "Alice" "savings"
                          (Q2Qc 100 + Q2Qc 100 * Q2Qc (2 # 100))
                          (Q2Qc (2 # 100)) [])]> (objs sample_world)) 0) ∧
  apply_interest bob_ref sample_world = Some (VNone, sample_world).
Proof.
  destruct apply_interest_savings_checking
    as (Hgen & Hfloat & Hint & Hints & Hchk & Hsav & Hchk').
  split; [|split; [|split]].
  - apply (Hint (Py.BankAccount_init "Alice" "Savings" (Py.PInt 100))
             0x1.47ae147ae147bp-6%float 100%Z 100%float);
      vm_compute; reflexivity.
  - apply (Hchk (Py.BankAccount_init "Bob" "checking" (Py.PInt 5))).
    reflexivity.
  - apply (Hsav sample_world alice_ref alice); reflexivity.
  - apply (Hchk' sample_world bob_ref bob); reflexivity.
Defined.

(** C6 as stated fails in the program's arithmetic. On a savings
    account with balance 7 and the constructor's rate, the call leaves
    7 + 7 * 0.02 = 7.14 (0x1.c8f5c28f5c28fp+2), while 7 * (1 + 0.02) is
    7.140000000000001 (0x1.c8f5c28f5c290p+2), the next float up. *)
Lemma apply_interest_savings_counterexample :
  Py.apply_interest (Py.BankAccount_init "Alice" "savings" (Py.PInt 7))
  = Some (Py.mkBankAccount "Alice" "savings"
            (Py.PFloat 0x1.c8f5c28f5c28fp+2)
            (Py.PFloat 0x1.47ae147ae147bp-6) []) ∧
  (Py.add (Py.PInt 1) (Py.PFloat 0x1.47ae147ae147bp-6)
     ≫= Py.mul (Py.PInt 7)) = Some (Py.PFloat 0x1.c8f5c28f5c290p+2) ∧
  PrimFloat.ltb 0x1.c8f5c28f5c28fp+2 0x1.c8f5c28f5c290p+2 = true ∧
  ¬ Py.savings_as_product
      (Py.BankAccount_init "Alice" "savings" (Py.PInt 7)).
Proof.
  split; [vm_compute; reflexivity|]. split; [vm_compute; reflexivity|].
  split; [vm_compute; reflexivity|].
  intros Hclaim.
  specialize (Hclaim
                (Py.mkBankAccount "Alice" "savings"
                   (Py.PFloat 0x1.c8f5c28f5c28fp+2)
                   (Py.PFloat 0x1.47ae147ae147bp-6) [])
                (Py.PFloat 0x1.051eb851eb852p+0)
                (Py.PFloat 0x1.c8f5c28f5c290p+2)).
  assert (Py.PFloat 0x1.c8f5c28f5c28fp+2 = Py.PFloat 0x1.c8f5c28f5c290p+2)
    as Heq by (apply Hclaim; vm_compute; reflexivity).
  apply (f_equal (λ n, match n with
                       | Py.PFloat f => PrimFloat.eqb f 0x1.c8f5c28f5c28fp+2
                       | Py.PInt _ => false
                       end)) in Heq.
  vm_compute in Heq. discriminate.
Qed.

Lemma apply_interest_frame_witness :
  ∃ w' acc',
    apply_interest alice_ref sample_world = Some (VNone, w') ∧
    account_at w' alice_ref = Some acc' ∧
    owner acc' = "Alice" ∧
    account_type acc' = "savings" ∧
    annual_interest_rate acc' = Q2Qc (2 # 100) ∧
    transactions acc' = [] ∧
    clock w' = 0%nat.
Proof.
  apply (apply_interest_frame sample_world alice_ref alice).
  reflexivity.
Defined.

(** A type nobody knows is accepted, in the sample world and in an
    empty one, and interest on Bob's "checking" account does nothing. *)
Lemma unknown_account_type_is_silent_witness :
  (∃ l a,
     BankAccount_new "Dan" "Gold" (Q2Qc 7) sample_world
     = Some (l, mkWorld (<[l := OBankAccount a]> (objs sample_world)) 0) ∧
     objs sample_world !! l = None ∧
     owner a = "Dan" ∧ balance a = Q2Qc 7 ∧
     annual_interest_rate a = Q2Qc (2 # 100) ∧ transactions a = [] ∧
     account_type a = "gold") ∧
  (∃ l a,
     BankAccount_new "Dan" "Gold" (Q2Qc 7) (mkWorld ∅ 0)
     = Some (l, mkWorld (<[l := OBankAccount a]> ∅) 0) ∧
     account_type a = "gold") ∧
  apply_interest bob_ref sample_world = Some (VNone, sample_world).
Proof.
  destruct unknown_account_type_is_silent as [Hnew Hsilent].
  split; [|split].
  - destruct (Hnew sample_world "Dan" "Gold" (Q2Qc 7))
      as (l & a & Hrun & Hfresh & Ho & Hb & Hr & Htx & Hty).
    exists l, a. repeat split; try done. by rewrite Hty.
  - destruct (Hnew (mkWorld ∅ 0) "Dan" "Gold" (Q2Qc 7))
      as (l & a & Hrun & _ & _ & _ & _ & _ & Hty).
    exists l, a. split; [exact Hrun|]. by rewrite Hty.
  - apply (Hsilent sample_world bob_ref bob eq_refl).
    vm_compute. intros Hin.
    repeat (apply elem_of_cons in Hin as [Heq|Hin]; [discriminate Heq|]).
    by apply elem_of_nil in Hin.
Defined.

(** Bob is the second entry of the sample bank; nobody is called
    "nonexistent". *)
Lemma get_account_spec_witness :
  get_account bank_ref "Bob" sample_world = Some (VRef bob_ref, sample_world)
  ∧ get_account bank_ref "nonexistent" sample_world
    = Some (VStr "Account not found", sample_world)
  ∧ is_BankAccount sample_world (VStr "Account not found") = false.
Proof.
  assert (Forall (λ l, is_Some (account_at sample_world l))
            [alice_ref; bob_ref; carol_ref]) as Hall.
  { repeat (constructor; [eexists; reflexivity|]). constructor. }
  split.
  - apply (proj1 (get_account_spec sample_world bank_ref
                    (mkBank [alice_ref; bob_ref; carol_ref]) "Bob"
                    eq_refl Hall)
             [alice_ref] bob_ref [carol_ref] bob); try reflexivity.
    intros l' acc' Hin Hacc'. apply list_elem_of_singleton in Hin as ->.
    injection Hacc' as <-. discriminate.
  - apply (proj2 (get_account_spec sample_world bank_ref
                    (mkBank [alice_ref; bob_ref; carol_ref]) "nonexistent"
                    eq_refl Hall)).
    intros l acc Hin Hacc.
    repeat (apply elem_of_cons in Hin as [->|Hin];
            [injection Hacc as <-; discriminate|]).
    by apply elem_of_nil in Hin.
Defined.

(** The lookup, run: a stored owner, a missing one, and the first of two
    accounts of one owner. *)
Lemma get_account_sample_found :
  get_account bank_ref "Bob" sample_world = Some (VRef bob_ref, sample_world).
Proof. reflexivity. Qed.

Lemma get_account_sample_missing :
  get_account bank_ref "nonexistent" sample_world
  = Some (VStr "Account not found", sample_world).
Proof. reflexivity. Qed.

Lemma get_account_sample_duplicate :
  let w := mkWorld (<[bank_ref := OBank (mkBank [carol_ref; bob_ref;
                                                  alice_ref])]>
                      (<[carol_ref := OBankAccount bob]>
                         (objs sample_world))) 0 in
  get_account bank_ref "Bob" w = Some (VRef carol_ref, w).
Proof. reflexivity. Qed.

(** Alice sends 30 to Bob: one record on Alice holding 70, two on Bob
    holding 35. *)
Lemma balance_changes_recorded_witness :
  (∃ w' t_out t_dep t_in,
     transfer sample_time sample_format alice_ref (VRef bob_ref) (Q2Qc 30)
       sample_world = Some (VNone, w') ∧
     t_out = mkTransaction
               "transfer to Bank account of Bob | Account type: checking | Balance: #."
               (Q2Qc 30) (Q2Qc 100 - Q2Qc 30) "2024/01/01, 00:00:00" ∧
     t_dep = mkTransaction "deposit" (Q2Qc 30) (Q2Qc 5 + Q2Qc 30)
                           "2024/01/01, 00:00:00" ∧
     t_in = mkTransaction "transfer from Alice" (Q2Qc 30)
                          (Q2Qc 5 + Q2Qc 30) "2024/01/01, 00:00:00" ∧
     account_at w' alice_ref =
       Some (mkBankAccount "Alice" "savings" (Q2Qc 100 - Q2Qc 30)
               (Q2Qc (2 # 100)) ([] ++ [t_out])) ∧
     account_at w' bob_ref =
       Some (mkBankAccount "Bob" "checking" (Q2Qc 5 + Q2Qc 30)
               (Q2Qc (2 # 100)) ([] ++ [t_dep; t_in])) ∧
     is_transfer_out t_out = true ∧
     is_transfer_in t_dep = false ∧
     is_transfer_in t_in = true) ∧
  (records_balance_change (deposit sample_time alice_ref (Q2Qc 50)) ∧
   records_balance_change
     (withdraw sample_time sample_format alice_ref (Q2Qc 50))) ∧
  (∃ w' acc',
     apply_interest alice_ref sample_world = Some (VNone, w') ∧
     account_at w' alice_ref = Some acc' ∧
     transactions acc' = []).
Proof.
  destruct (balance_changes_recorded sample_time sample_format)
    as (Htransfer & Hrecords & Hinterest).
  split; [|split].
  - apply (Htransfer sample_world alice_ref bob_ref alice bob (Q2Qc 30)).
    + discriminate.
    + reflexivity.
    + reflexivity.
    + reflexivity.
    + vm_compute. discriminate.
  - apply Hrecords.
  - apply (Hinterest sample_world alice_ref alice). reflexivity.
Defined.

(** C1 as stated fails twice. Interest changes the balance of Alice's
    savings account and appends nothing; and the transfer of 30 from
    Alice changes Bob's balance and appends two records to Bob, the
    "deposit" of the credit leg and the transfer-in record. *)
Lemma balance_change_record_counterexample :
  ¬ records_balance_change (apply_interest alice_ref) ∧
  ¬ records_balance_change
      (transfer sample_time sample_format alice_ref (VRef bob_ref) (Q2Qc 30)).
Proof.
  split; intros H.
  - destruct (H sample_world VNone _ alice_ref alice _
                (apply_interest_savings _ _ _ sample_alice eq_refl)
                sample_alice (account_at_store _ _ _ _)) as (t & Ht & _).
    + simpl. intros Heq. apply (f_equal this) in Heq.
      vm_compute in Heq. discriminate.
    + simpl in Ht. discriminate.
  - assert (transfer sample_time sample_format alice_ref (VRef bob_ref)
              (Q2Qc 30) sample_world
            = Some (VNone, after_transfer sample_time sample_format
                             sample_world alice_ref bob_ref alice bob
                             (Q2Qc 30))) as Hrun.
    { apply transfer_run; try reflexivity; [discriminate|].
      vm_compute. discriminate. }
    destruct (H sample_world VNone _ bob_ref bob
                (credited sample_time sample_world alice bob (Q2Qc 30))
                Hrun sample_bob) as (t & Ht & _).
    + reflexivity.
    + simpl. intros Heq. apply (f_equal this) in Heq.
      vm_compute in Heq. discriminate.
    + simpl in Ht. discriminate.
Qed.

(** What the program does on Alice's savings account: the balance goes
    from 100 to 102 and the transaction list stays empty. *)
Lemma apply_interest_sample :
  ∃ w' acc',
    apply_interest alice_ref sample_world = Some (VNone, w') ∧
    account_at w' alice_ref = Some acc' ∧
    balance acc' = Q2Qc 102 ∧
    transactions acc' = [].
Proof.
  do 2 eexists. split; [exact (apply_interest_savings _ _ _ sample_alice eq_refl)|].
  split; [apply account_at_store|]. split; [|reflexivity].
  apply Qc_is_canon. reflexivity.
Qed.

(** C2 on the program. An account constructed with the type
    "Mortgage_Loan" stores "mortgage_loan"; [apply_interest] compares the
    stored type with "morgage_loan", so no branch is taken: the call
    returns, the world is unchanged, and the balance is still 100 and not
    the claimed [100 * (1 + 2 * 0.02)] = 104. *)
Theorem mortgage_loan_interest_not_applied :
  ∃ l w' acc,
    BankAccount_new "Carol" "Mortgage_Loan" (Q2Qc 100) (mkWorld ∅ 0)
      = Some (l, w') ∧
    account_at w' l = Some acc ∧
    account_type acc = "mortgage_loan" ∧
    apply_interest l w' = Some (VNone, w') ∧
    balance acc = Q2Qc 100 ∧
    balance acc * (1 + Q2Qc 2 * annual_interest_rate acc) = Q2Qc 104.
Proof.
  destruct (BankAccount_new_run (mkWorld ∅ 0) "Carol" "Mortgage_Loan"
              (Q2Qc 100)) as (l & Hrun & _).
  eexists l, _, _. split; [exact Hrun|].
  split; [apply account_at_store|]. split; [reflexivity|].
  split; [|split; [reflexivity|apply Qc_is_canon; reflexivity]].
  apply (apply_interest_other _ _ _ (account_at_store _ _ _ _)); discriminate.
Qed.

(** The other half of C2 holds: on a "private_loan" account the balance
    becomes [b * (1 + 5 * r)]. *)
Lemma private_loan_interest_applied w self acc :
  account_at w self = Some acc → account_type acc = "private_loan" →
  ∃ w',
    apply_interest self w = Some (VNone, w') ∧
    account_at w' self =
      Some (set_balance
              (balance acc * (1 + Q2Qc 5 * annual_interest_rate acc)) acc).
Proof.
  intros Hacc Hty. eexists.
  split; [exact (apply_interest_private_loan _ _ _ Hacc Hty)|].
  apply account_at_store.
Qed.

(** * The further properties on sample data *)

Lemma sample_ops_run :
  ∃ w', run_ops sample_time sample_format sample_ops sample_world
        = Some (tt, w').
Proof. eexists. vm_compute. reflexivity. Qed.

Lemma sample_world_accounts l a :
  account_at sample_world l = Some a →
  (l = alice_ref ∧ a = alice) ∨ (l = bob_ref ∧ a = bob) ∨
  (l = carol_ref ∧ a = carol).
Proof.
  unfold account_at, sample_world; simpl. intros H.
  destruct (decide (l = alice_ref)) as [->|?];
    [left; split; [done|]; by inversion H|rewrite lookup_insert_ne in H by done].
  destruct (decide (l = bob_ref)) as [->|?];
    [right; left; split; [done|]; by inversion H
    |rewrite lookup_insert_ne in H by done].
  destruct (decide (l = carol_ref)) as [->|?];
    [right; right; split; [done|]; by inversion H
    |rewrite lookup_insert_ne in H by done].
  destruct (decide (l = bank_ref)) as [->|?];
    [by inversion H|rewrite lookup_insert_ne in H by done].
  by rewrite lookup_empty in H.
Qed.

Lemma sample_world_solvent : solvent sample_world.
Proof.
  intros l a H.
  destruct (sample_world_accounts l a H) as [[_ ->]|[[_ ->]|[_ ->]]];
    split; vm_compute; discriminate.
Qed.

Lemma sample_bank :
  objs sample_world !! bank_ref
  = Some (OBank (mkBank [alice_ref; bob_ref; carol_ref])).
Proof. reflexivity. Qed.

Lemma sample_stores_accounts :
  stores_accounts sample_world (mkBank [alice_ref; bob_ref; carol_ref]).
Proof.
  unfold stores_accounts; simpl.
  repeat (constructor; [eexists; reflexivity|]). constructor.
Qed.

Lemma sample_NoDup : NoDup [alice_ref; bob_ref; carol_ref].
Proof.
  repeat (apply NoDup_cons; split;
          [intros H; repeat (apply elem_of_cons in H as [H|H];
                             [discriminate H|]);
           by apply elem_of_nil in H|]).
  apply NoDup_nil_2.
Qed.

Lemma sample_bank_ok : bank_ok sample_world bank_ref.
Proof.
  exists (mkBank [alice_ref; bob_ref; carol_ref]).
  split; [reflexivity|]. split; [apply sample_stores_accounts|].
  apply sample_NoDup.
Qed.

Lemma calls_keep_accounts_witness :
  ∃ w' a' new,
    run_ops sample_time sample_format sample_ops sample_world
    = Some (tt, w') ∧
    account_at w' bob_ref = Some a' ∧
    owner a' = "Bob" ∧
    account_type a' = "checking" ∧
    annual_interest_rate a' = Q2Qc (2 # 100) ∧
    transactions a' = [] ++ new.
Proof.
  destruct sample_ops_run as [w' Hrun].
  destruct (calls_keep_accounts sample_time sample_format sample_ops
              sample_world tt w' bob_ref bob Hrun eq_refl)
    as (a' & new & H).
  by exists w', a', new.
Defined.

Lemma calls_keep_lookup_witness :
  ∃ w',
    run_ops sample_time sample_format sample_ops sample_world
    = Some (tt, w') ∧
    get_account bank_ref "Bob" w' = Some (VRef bob_ref, w') ∧
    (∀ l bk, objs sample_world !! l = Some (OBank bk) →
             objs w' !! l = Some (OBank bk)) ∧
    (∀ l, objs sample_world !! l = None → objs w' !! l = None).
Proof.
  destruct sample_ops_run as [w' Hrun]. exists w'. split; [done|].
  apply (calls_keep_lookup sample_time sample_format sample_ops
           sample_world tt w' bank_ref "Bob" (VRef bob_ref) Hrun).
  reflexivity.
Defined.

Lemma calls_keep_solvent_witness :
  ∃ w',
    run_ops sample_time sample_format sample_ops sample_world
    = Some (tt, w') ∧ solvent w'.
Proof.
  destruct sample_ops_run as [w' Hrun]. exists w'. split; [done|].
  apply (calls_keep_solvent sample_time sample_format sample_ops
           sample_world tt w' sample_world_solvent Hrun).
Defined.





Lemma get_account_sample_dan :
  get_account bank_ref "Dan" sample_world
  = Some (VStr "Account not found", sample_world).
Proof. reflexivity. Qed.

(** Dan opens an account at the sample bank; a second Bob would not be
    found, the first one stays the answer. *)
Lemma create_account_lookup_witness :
  ∃ l w',
    create_account bank_ref "Dan" "Savings" (Q2Qc 7) sample_world
    = Some (VRef l, w') ∧
    objs sample_world !! l = None ∧
    account_at w' l = Some (BankAccount_init "Dan" "Savings" (Q2Qc 7)) ∧
    get_account bank_ref "Bob" w' = Some (VRef bob_ref, w') ∧
    get_account bank_ref "Dan" w' = Some (VRef l, w') ∧
    get_account bank_ref "nonexistent" w'
    = Some (VStr "Account not found", w').
Proof.
  destruct (create_account_lookup sample_world bank_ref
              (mkBank [alice_ref; bob_ref; carol_ref]) "Dan" "Savings"
              (Q2Qc 7) sample_bank)
    as (l & w' & Hrun & Hfresh & Hnew & Hfound & Hdan & Hmissing).
  exists l, w'. split; [done|]. split; [done|]. split; [done|].
  split; [|split].
  - apply Hfound. reflexivity.
  - apply Hdan. reflexivity.
  - apply Hmissing; [discriminate|reflexivity].
Defined.


Lemma bank_order_kept_witness :
  (∃ l w', Bank_new sample_world = Some (l, w') ∧ bank_ok w' l) ∧
  (∃ r w', create_account bank_ref "Dan" "Savings" (Q2Qc 7) sample_world
           = Some (r, w') ∧ bank_ok w' bank_ref) ∧
  (∃ w', run_ops sample_time sample_format sample_ops sample_world
         = Some (tt, w') ∧ bank_ok w' bank_ref).
Proof.
  destruct (bank_order_kept sample_time sample_format)
    as (Hnew & Hcreate & Hops).
  split; [|split].
  - assert (∃ l w', Bank_new sample_world = Some (l, w')) as (l & w' & Hrun)
      by (do 2 eexists; reflexivity).
    exists l, w'. split; [done|]. by apply (Hnew sample_world).
  - assert (∃ r w', create_account bank_ref "Dan" "Savings" (Q2Qc 7)
                      sample_world = Some (r, w')) as (r & w' & Hrun)
      by (do 2 eexists; reflexivity).
    exists r, w'. split; [done|].
    apply (Hcreate sample_world bank_ref "Dan" "Savings" (Q2Qc 7) r w'
             sample_bank_ok Hrun).
  - destruct sample_ops_run as [w' Hrun]. exists w'. split; [done|].
    apply (Hops sample_ops sample_world tt w' bank_ref sample_bank_ok Hrun).
Defined.


Lemma bank_instance_as_account_witness :
  is_BankAccount sample_world (VRef bank_ref) = true ∧
  transfer sample_time sample_format alice_ref (VRef bank_ref) (Q2Qc 30)
    sample_world = None ∧
  deposit sample_time bank_ref (Q2Qc 30) sample_world = None ∧
  withdraw sample_time sample_format bank_ref (Q2Qc 30) sample_world = None ∧
  apply_interest bank_ref sample_world = None.
Proof.
  apply (bank_instance_as_account sample_time sample_format sample_world
           alice_ref alice bank_ref (mkBank [alice_ref; bob_ref; carol_ref])
           (Q2Qc 30) eq_refl sample_bank eq_refl).
  vm_compute. discriminate.
Defined.


Lemma transfer_rejections_witness :
  transfer sample_time sample_format alice_ref (VStr "Bob") (Q2Qc (-1))
    sample_world
  = Some (VStr "Target account must be a bank account", sample_world) ∧
  transfer sample_time sample_format alice_ref (VRef bob_ref) (Q2Qc (-1))
    sample_world
  = Some (VStr "Transfer amount has to be positve number!", sample_world) ∧
  transfer sample_time sample_format alice_ref (VRef bob_ref) (Q2Qc 500)
    sample_world
  = Some (VStr "Not enough money remaining! Current balance: #.",
          sample_world).
Proof.
  split; [|split].
  - apply (proj1 (transfer_rejections sample_time sample_format sample_world
                    alice_ref (VStr "Bob") alice (Q2Qc (-1)) eq_refl)).
    reflexivity.
  - apply (proj1 (proj2 (transfer_rejections sample_time sample_format
                           sample_world alice_ref (VRef bob_ref) alice
                           (Q2Qc (-1)) eq_refl))).
    + reflexivity.
    + vm_compute. discriminate.
  - apply (proj2 (proj2 (transfer_rejections sample_time sample_format
                           sample_world alice_ref (VRef bob_ref) alice
                           (Q2Qc 500) eq_refl))); reflexivity.
Defined.

Lemma history_grows_witness :
  ∃ w' a' new,
    run_ops sample_time sample_format sample_ops sample_world
    = Some (tt, w') ∧
    account_at w' bob_ref = Some a' ∧
    transactions a' = [] ++ new ∧
    history sample_format sample_repr bob_ref sample_world
    = Some ([], sample_world) ∧
    history sample_format sample_repr bob_ref w'
    = Some ([] ++
            concat
              ((λ t,
                  ["-----------------------------------------------------------------------------------------";
                   "{'Action': " +:+ sample_repr (Action t) +:+
                   ", 'Amount': " +:+ sample_format (Amount t) +:+
                   ", 'Balance': " +:+ sample_format (Balance t) +:+
                   ", 'Time': " +:+ sample_repr (Time t) +:+ "}"])
                 <$> new), w').
Proof.
  destruct sample_ops_run as [w' Hrun].
  destruct (history_grows sample_time sample_format sample_repr sample_ops
              sample_world tt w' bob_ref bob eq_refl Hrun)
    as (_ & a' & new & Hacc' & Hnew & Hbefore & Hafter).
  by exists w', a', new.
Defined.

(** What Bob's history shows after the sample calls: the credit leg of
    Alice's transfer and the transfer-in record; the rejected withdrawal
    left no trace. *)
Lemma history_sample :
  ∃ w',
    run_ops sample_time sample_format sample_ops sample_world
    = Some (tt, w') ∧
    history sample_format sample_repr bob_ref w'
    = Some ([separator;
             "{'Action': 'deposit', 'Amount': #, 'Balance': #, 'Time': '2024/01/01, 00:00:00'}";
             separator;
             "{'Action': 'transfer from Alice', 'Amount': #, 'Balance': #, 'Time': '2024/01/01, 00:00:00'}"],
            w').
Proof. eexists. split; vm_compute; reflexivity. Qed.

Lemma list_accounts_lines_witness :
  list_accounts sample_format bank_ref sample_world
  = Some (account_str sample_format <$> [alice; bob; carol], sample_world) ∧
  ∃ l w',
    create_account bank_ref "Dan" "Savings" (Q2Qc 7) sample_world
    = Some (VRef l, w') ∧
    list_accounts sample_format bank_ref w'
    = Some ((account_str sample_format <$> [alice; bob; carol])
              ++ [account_str sample_format
                    (BankAccount_init "Dan" "Savings" (Q2Qc 7))], w').
Proof.
  apply (list_accounts_lines sample_format sample_world bank_ref
           (mkBank [alice_ref; bob_ref; carol_ref]) [alice; bob; carol]
           "Dan" "Savings" (Q2Qc 7) sample_bank).
  simpl. repeat constructor.
Defined.

Lemma list_accounts_sample :
  list_accounts sample_format bank_ref sample_world
  = Some (["Bank account of Alice | Account type: savings | Balance: #.";
           "Bank account of Bob | Account type: checking | Balance: #.";
           "Bank account of Carol | Account type: mortgage_loan | Balance: #."],
          sample_world).
Proof. reflexivity. Qed.

Lemma calls_touch_own_accounts_witness :
  ∃ r w',
    run_op sample_time sample_format
      (OpTransfer alice_ref (VRef bob_ref) (Q2Qc 30)) sample_world
    = Some (r, w') ∧
    objs w' !! carol_ref = objs sample_world !! carol_ref ∧
    objs w' !! bank_ref = objs sample_world !! bank_ref.
Proof.
  assert (∃ r w', run_op sample_time sample_format
                    (OpTransfer alice_ref (VRef bob_ref) (Q2Qc 30))
                    sample_world = Some (r, w')) as (r & w' & Hrun)
    by (do 2 eexists; vm_compute; reflexivity).
  exists r, w'. split; [done|]. split.
  - apply (calls_touch_own_accounts sample_time sample_format _ _ _ _
             carol_ref Hrun).
    simpl. intros Hin.
    repeat (apply elem_of_cons in Hin as [Hin|Hin]; [discriminate Hin|]).
    by apply elem_of_nil in Hin.
  - apply (calls_touch_own_accounts sample_time sample_format _ _ _ _
             bank_ref Hrun).
    simpl. intros Hin.
    repeat (apply elem_of_cons in Hin as [Hin|Hin]; [discriminate Hin|]).
    by apply elem_of_nil in Hin.
Defined.
